(** * The measurements pipeline: loading, cleaning and hourly metrics

    A shallow embedding of [measurements_pipeline.py].  The three stages
    [load_dataset], [get_cleaned_dataset] and [add_hour_metrics] are
    translated statement by statement; the pandas primitives they call
    ([to_numeric], [to_datetime], [dropna], [set_index], [duplicated],
    [groupby], [join], ...) are modelled on the value level:

    - a cell holds a Python value: an integer, a text, a boolean, a
      [Timestamp] (nanoseconds since the epoch, as pandas stores it) or the
      missing value (NaN, None, NaT);
    - integers are unbounded, as Python integers are; a number with a
      fractional part occurs only as what a text parses to, and is kept as
      the integer that [astype(int)] makes of it;
    - a [DataFrame] is its ordered list of column names and its rows, each
      row carrying its index label and a dictionary from column name to
      cell;
    - the [try ... except Exception: return df] of the two table stages is a
      list of statements run one after the other on the local variable
      [df]; a statement either rebinds [df] or raises, and the handler
      returns [df] as it is bound at that point. *)

From Stdlib Require Import ZArith Lia Ascii String.
From stdpp Require Import base option list gmap strings.

Local Open Scope Z_scope.

(** ** Cells, rows and tables *)

Inductive Cell : Type :=
  | CInt (z : Z)
  | CStr (s : string)
  | CBool (b : bool)
  | CTime (ns : Z)
  | CNull.

#[global] Instance Cell_eq_dec : EqDecision Cell.
Proof. solve_decision. Defined.

Record DataFrame : Type := mkDataFrame {
  columns : list string;
  rows : list (Cell * gmap string Cell)
}.

(** [DataFrame()] *)
Definition DataFrame_new : DataFrame := mkDataFrame [] [].

(** [df.empty]: an axis of length zero. *)
Definition empty (df : DataFrame) : bool :=
  match rows df, columns df with
  | [], _ => true
  | _, [] => true
  | _, _ => false
  end.

(** The value a row holds in a column; a row that lacks the key reads as
    missing. *)
Definition cell (col : string) (r : gmap string Cell) : Cell :=
  default CNull (r !! col).

(** [col in df.columns] *)
Definition has_column (col : string) (df : DataFrame) : bool :=
  bool_decide (col ∈ columns df).

(** [df[col]]: the column as a series; [KeyError] (here [None]) when the
    table has no such column. *)
Definition getitem (col : string) (df : DataFrame) : option (list Cell) :=
  if has_column col df then Some ((λ r, cell col r.2) <$> rows df) else None.

(** [df[col] = values] and [df.loc[:, col] = values]: the column is
    overwritten where it stands, or appended as the last column. *)
Definition setitem (col : string) (values : list Cell) (df : DataFrame)
  : DataFrame :=
  {| columns := if has_column col df then columns df else columns df ++ [col];
     rows := zip_with (λ r v, (r.1, <[col := v]> r.2)) (rows df) values |}.

(** [df.drop(columns=[col], errors='ignore')] *)
Definition drop_column (col : string) (df : DataFrame) : DataFrame :=
  {| columns := filter (λ c, c ≠ col) (columns df);
     rows := (λ r, (r.1, delete col r.2)) <$> rows df |}.

(** [df[mask]]: the rows at which the boolean mask is true. *)
Fixpoint boolean_mask {A : Type} (mask : list bool) (l : list A) : list A :=
  match mask, l with
  | b :: mask', x :: l' =>
      if b then x :: boolean_mask mask' l' else boolean_mask mask' l'
  | _, _ => []
  end.

Definition select_rows (mask : list bool) (df : DataFrame) : DataFrame :=
  {| columns := columns df; rows := boolean_mask mask (rows df) |}.

(** [series != text], element by element: only a text cell can be equal to
    a text. *)
Definition ne_text (s : string) (c : Cell) : bool :=
  match c with
  | CStr s' => negb (bool_decide (s' = s))
  | _ => true
  end.

(** ** Numeric coercion *)

(** What [to_numeric(..., errors='coerce')] makes of a value: a finite
    number (kept here as the integer [astype(int)] turns it into), NaN for
    what does not parse, or an infinity. *)
Inductive Numeric : Type :=
  | Finite (z : Z)
  | NaN
  | Infinite.

#[global] Instance Numeric_eq_dec : EqDecision Numeric.
Proof. solve_decision. Defined.

(** [series.fillna(0)] *)
Definition fillna0 (x : Numeric) : Numeric :=
  match x with
  | NaN => Finite 0
  | _ => x
  end.

(** [series.astype(int)]: raises on a value that is not finite. *)
Definition astype_int (s : list Numeric) : option (list Z) :=
  mapM (λ x, match x with Finite z => Some z | _ => None end) s.

(** [frame[cols].fillna(0)] on the cells of a table. *)
Definition cell_fillna0 (c : Cell) : Cell :=
  match c with
  | CNull => CInt 0
  | _ => c
  end.

(** [series > 0], element by element; comparing a text or a timestamp with
    a number raises [TypeError], a missing value compares false. *)
Definition gt_zero (c : Cell) : option bool :=
  match c with
  | CInt z => Some (bool_decide (0 < z))
  | CBool b => Some b
  | CNull => Some false
  | CStr _ | CTime _ => None
  end.

(** ** The index *)

(** [index.duplicated(keep='first')]: true at every label that occurred at
    an earlier position. *)
Fixpoint duplicated_from (seen labels : list Cell) : list bool :=
  match labels with
  | [] => []
  | l :: labels' =>
      bool_decide (l ∈ seen) :: duplicated_from (l :: seen) labels'
  end.

Definition duplicated (labels : list Cell) : list bool :=
  duplicated_from [] labels.

Definition index (df : DataFrame) : list Cell := fst <$> rows df.

(** [df.dropna(subset=[col])]; [KeyError] when the column is absent. *)
Definition dropna (col : string) (df : DataFrame) : option DataFrame :=
  s ← getitem col df;
  Some (select_rows ((λ c, negb (bool_decide (c = CNull))) <$> s) df).

(** [df.set_index(col)]: the column becomes the index and leaves the
    columns; [KeyError] when it is absent. *)
Definition set_index (col : string) (df : DataFrame) : option DataFrame :=
  if has_column col df then
    Some {| columns := filter (λ c, c ≠ col) (columns df);
            rows := (λ r, (cell col r.2, delete col r.2)) <$> rows df |}
  else None.

(** ** Statements under [try] *)

(** A statement of a [try] block acts on the local variable [df]: it
    rebinds it, or raises and leaves it as it was. *)
Definition Statement : Type := DataFrame → option DataFrame.

(** [try: s1; ...; sn; return df  except Exception: return df]. Both exits
    return the local variable; the boolean tells which one was taken. *)
Fixpoint try_block (body : list Statement) (df : DataFrame)
  : bool * DataFrame :=
  match body with
  | [] => (true, df)
  | s :: body' =>
      match s df with
      | Some df' => try_block body' df'
      | None => (false, df)
      end
  end.

Definition TIMESTAMP : string := "timestamp".
Definition GRID_PURCHASE : string := "grid_purchase".
Definition GRID_FEEDIN : string := "grid_feedin".
Definition DIRECT_CONSUMPTION : string := "direct_consumption".
Definition DATE : string := "date".
Definition DIRECT_CONSUMPTION_FLAG : string := "direct_consumption_flag".
Definition DEV_TEST : string := "Dev test".

Definition required_columns : list string :=
  [TIMESTAMP; GRID_PURCHASE; GRID_FEEDIN; DIRECT_CONSUMPTION].

Definition numeric_columns : list string :=
  [GRID_PURCHASE; GRID_FEEDIN; DIRECT_CONSUMPTION].

(** The two text parsers of pandas are taken as given: what
    [to_numeric(..., errors='coerce')] and [to_datetime(..., errors='coerce')]
    make of one text value. *)
Class Parsers : Type := {
  parse_number : string → Numeric;
  parse_datetime : string → option Z
}.

Section Cleaner.

Context {parsers : Parsers}.

(** [to_numeric(series, errors='coerce')] on one value: a boolean counts
    as 0 or 1, a timestamp among other objects does not parse. *)
Definition to_numeric (c : Cell) : Numeric :=
  match c with
  | CInt z => Finite z
  | CStr s => parse_number s
  | CBool b => Finite (Z.b2z b)
  | CTime _ => NaN
  | CNull => NaN
  end.

(** [to_datetime(series, errors='coerce')] on one value: an integer
    counts nanoseconds since the epoch, what does not parse or convert is
    NaT. *)
Definition to_datetime (c : Cell) : Cell :=
  match c with
  | CStr s => from_option CTime CNull (parse_datetime s)
  | CInt z => CTime z
  | CTime ns => CTime ns
  | CBool _ => CNull
  | CNull => CNull
  end.

(** Task #1: [df = df[df['direct_consumption'] != 'Dev test']] *)
Definition remove_dev_test : Statement := λ df,
  s ← getitem DIRECT_CONSUMPTION df;
  Some (select_rows (ne_text DEV_TEST <$> s) df).

(** Task #2, one turn of the loop:
    [df.loc[:, col] = to_numeric(df[col], errors='coerce').fillna(0).astype(int)] *)
Definition coerce_numeric (col : string) : Statement := λ df,
  s ← getitem col df;
  ints ← astype_int ((λ c, fillna0 (to_numeric c)) <$> s);
  Some (setitem col (CInt <$> ints) df).

(** Task #3: [df = df.drop(columns=['date'], errors='ignore')] *)
Definition drop_date : Statement := λ df, Some (drop_column DATE df).

(** Task #4: [df['timestamp'] = to_datetime(df['timestamp'], errors='coerce')] *)
Definition convert_timestamp : Statement := λ df,
  s ← getitem TIMESTAMP df;
  Some (setitem TIMESTAMP (to_datetime <$> s) df).

(** Task #5: [df = df.dropna(subset=['timestamp']).set_index('timestamp')] *)
Definition index_by_timestamp : Statement := λ df,
  dropna TIMESTAMP df ≫= set_index TIMESTAMP.

(** [df = df[~df.index.duplicated(keep='first')]] *)
Definition drop_duplicates : Statement := λ df,
  Some (select_rows (negb <$> duplicated (index df)) df).

(** Task #6:
    [df.loc[:, ['grid_purchase', 'grid_feedin']] = df[['grid_purchase', 'grid_feedin']].fillna(0).copy()];
    the right-hand side is read before anything is written. *)
Definition fill_missing (cols : list string) : Statement := λ df,
  series ← mapM (λ col, getitem col df) cols;
  Some (foldr (λ cs d, setitem cs.1 (cell_fillna0 <$> cs.2) d) df
          (zip cols series)).

(** Task #7: [df['direct_consumption_flag'] = df['direct_consumption'] > 0] *)
Definition add_flag : Statement := λ df,
  s ← getitem DIRECT_CONSUMPTION df;
  flags ← mapM gt_zero s;
  Some (setitem DIRECT_CONSUMPTION_FLAG (CBool <$> flags) df).

Definition cleaning_steps : list Statement :=
  [remove_dev_test]
  ++ (coerce_numeric <$> numeric_columns)
  ++ [drop_date; convert_timestamp; index_by_timestamp; drop_duplicates;
      fill_missing [GRID_PURCHASE; GRID_FEEDIN]; add_flag].

Definition get_cleaned_dataset (df : DataFrame) : DataFrame :=
  if empty df then df
  else if negb (forallb (λ col, has_column col df) required_columns)
  then DataFrame_new
  else (try_block cleaning_steps df).2.

(** Whether the cleaning steps ran to the end, without an exception. *)
Definition cleaning_completes (df : DataFrame) : bool :=
  (try_block cleaning_steps df).1.

End Cleaner.

(** ** Hourly metrics *)

Definition HOUR : string := "hour".
Definition TOTAL_SUFFIX : string := "_total".
Definition GRID_PURCHASE_TOTAL : string := "grid_purchase_total".
Definition GRID_FEEDIN_TOTAL : string := "grid_feedin_total".
Definition MAX_GRID_PURCHASE_HOUR : string := "max_grid_purchase_hour".
Definition MAX_GRID_FEEDIN_HOUR : string := "max_grid_feedin_hour".

Definition NS_PER_HOUR : Z := 3600 * 1000000000.
Definition NS_PER_DAY : Z := 24 * NS_PER_HOUR.

(** [Timestamp.hour] and [Timestamp.floor('D')] on nanoseconds since the
    epoch. *)
Definition hour_of (ns : Z) : Z := (ns `div` NS_PER_HOUR) `mod` 24.
Definition floor_day (ns : Z) : Z := (ns `div` NS_PER_DAY) * NS_PER_DAY.

(** An attribute of a [DatetimeIndex]: [AttributeError] when a label of the
    index is not a timestamp (the cleaner leaves no missing label in the
    index, and none is modelled here). *)
Definition datetime_index (f : Z → Cell) (df : DataFrame)
  : option (list Cell) :=
  mapM (λ l, match l with CTime ns => Some (f ns) | _ => None end) (index df).

(** [df.index.hour] *)
Definition index_hour : DataFrame → option (list Cell) :=
  datetime_index (λ ns, CInt (hour_of ns)).

(** [df.index.floor('D')] *)
Definition index_floor_day : DataFrame → option (list Cell) :=
  datetime_index (λ ns, CTime (floor_day ns)).

(** The aggregations are modelled on integer columns, which is what the
    cleaner produces; what pandas does on other cells depends on the dtype
    of the column, and the model raises there. *)
Definition as_int (c : Cell) : option Z :=
  match c with
  | CInt z => Some z
  | _ => None
  end.

Definition int_series (col : string) (df : DataFrame) : option (list Z) :=
  getitem col df ≫= mapM as_int.

(** The values of the rows whose group key is [k]. *)
Definition group {A : Type} (keys : list Cell) (values : list A) (k : Cell)
  : list A :=
  boolean_mask ((λ k', bool_decide (k' = k)) <$> keys) values.

Definition sum_Z (l : list Z) : Z := foldr Z.add 0 l.

(** [x.max()] of a series; a group is never empty. *)
Definition maximum (l : list Z) : option Z :=
  foldr (λ x acc, Some (from_option (Z.max x) x acc)) None l.

(** [df.groupby(key)[cols].sum()]: a table indexed by the distinct keys,
    holding for each column the sum over the key's rows. *)
Definition groupby_sum (key : string) (cols : list string) (df : DataFrame)
  : option DataFrame :=
  keys ← getitem key df;
  series ← mapM (λ col, int_series col df) cols;
  Some {| columns := cols;
          rows := (λ k, (k, list_to_map
                     (zip cols ((λ s, CInt (sum_Z (group keys s k))) <$> series))))
                  <$> remove_dups keys |}.

(** [t.columns = [col + suffix for col in t.columns]] *)
Definition add_suffix (suffix : string) (t : DataFrame) : DataFrame :=
  {| columns := (λ col, col +:+ suffix) <$> columns t;
     rows := (λ r, (r.1, list_to_map
                ((λ col, (col +:+ suffix, cell col r.2)) <$> columns t)))
             <$> rows t |}.

(** The row of a table at an index label (the first one). *)
Definition loc (k : Cell) (t : DataFrame) : option (gmap string Cell) :=
  (λ ir, ir.2.2) <$> list_find (λ r, r.1 = k) (rows t).

(** [df.join(other, on=key, how='left')]: every row of [df] keeps its place
    and gains the columns of the row of [other] indexed by its key, or
    missing values when there is none. [KeyError] when [df] has no column
    [key], [ValueError] when the two tables share a column name. *)
Definition join_on (key : string) (other df : DataFrame) : option DataFrame :=
  _ ← getitem key df;
  if bool_decide (Exists (λ col, col ∈ columns df) (columns other)) then None
  else Some
    {| columns := columns df ++ columns other;
       rows := (λ r,
                 (r.1, foldr (λ col acc,
                          <[col := from_option (cell col) CNull
                                     (loc (cell key r.2) other)]> acc)
                        r.2 (columns other)))
               <$> rows df |}.

(** [df.drop(columns=[col])]: [KeyError] when the column is absent. *)
Definition drop_existing (col : string) (df : DataFrame) : option DataFrame :=
  if has_column col df then Some (drop_column col df) else None.

(** [df.groupby(keys)[col].transform(lambda x: x == x.max())] *)
Definition transform_is_max (keys : list Cell) (values : list Z) : list bool :=
  zip_with (λ k v, bool_decide (maximum (group keys values k) = Some v))
    keys values.

(** [df['hour'] = df.index.hour] *)
Definition add_hour : Statement := λ df,
  hours ← index_hour df;
  Some (setitem HOUR hours df).

(** [hourly_totals = df.groupby('hour')[['grid_purchase', 'grid_feedin']].sum()]
    and the renaming of its columns; [hourly_totals] is a second local
    variable, it does not rebind [df]. *)
Definition hourly_totals (df : DataFrame) : option DataFrame :=
  add_suffix TOTAL_SUFFIX <$> groupby_sum HOUR [GRID_PURCHASE; GRID_FEEDIN] df.

(** [hourly_totals = ...], the renaming of its columns and
    [df = df.join(hourly_totals, on='hour', how='left')]: the three lines
    leave [df] as it is until the join has succeeded. *)
Definition join_totals : Statement := λ df,
  totals ← hourly_totals df;
  join_on HOUR totals df.

(** [df = df.drop(columns=['hour'])] *)
Definition drop_hour : Statement := drop_existing HOUR.

(** [df[flag] = df.groupby(df.index.floor('D'))[col].transform(lambda x: x == x.max())] *)
Definition flag_daily_max (flag col : string) : Statement := λ df,
  days ← index_floor_day df;
  values ← int_series col df;
  Some (setitem flag (CBool <$> transform_is_max days values) df).

Definition metric_steps : list Statement :=
  [add_hour; join_totals; drop_hour;
   flag_daily_max MAX_GRID_PURCHASE_HOUR GRID_PURCHASE;
   flag_daily_max MAX_GRID_FEEDIN_HOUR GRID_FEEDIN].

Definition add_hour_metrics (df : DataFrame) : DataFrame :=
  if empty df then df else (try_block metric_steps df).2.

Definition metrics_complete (df : DataFrame) : bool :=
  (try_block metric_steps df).1.

(** ** Loading *)

Inductive Level : Type := INFO | WARNING | ERROR.

(** A log record: its level, its message, and whether the traceback of the
    exception being handled is attached ([logger.exception]). *)
Record LogRecord : Type := mkLogRecord {
  levelname : Level;
  msg : string;
  exc_info : bool
}.

(** What [read_csv] does: it returns the parsed table or raises. *)
Inductive ReadCsv : Type :=
  | Parsed (df : DataFrame)
  | RaiseFileNotFoundError
  | RaiseException.

(** What a call does: it returns a value, or an exception leaves it. *)
Inductive Outcome (A : Type) : Type :=
  | Returns (a : A)
  | Propagates.
Arguments Returns {A} a.
Arguments Propagates {A}.

Section Loader.

(** The file system, seen through [read_csv(filename, delimiter=...)]. *)
Variable read_csv : string → string → ReadCsv.

Definition load_dataset (filename delimiter : string)
  : Outcome DataFrame * list LogRecord :=
  match read_csv filename delimiter with
  | Parsed df =>
      (Returns df,
       [mkLogRecord INFO "Loaded dataset with %s rows and %s columns." false])
  | RaiseFileNotFoundError =>
      (Returns DataFrame_new, [mkLogRecord ERROR "File not found: %s" false])
  | RaiseException =>
      (Returns DataFrame_new,
       [mkLogRecord ERROR "An error occurred while loading dataset" true])
  end.

End Loader.


(** ** What the two table stages log *)

Section StageLog.

Context {parsers : Parsers}.

(** The records of [get_cleaned_dataset]: a warning on an empty table, an
    error on a missing column, the traceback when a statement raised. *)
Definition get_cleaned_dataset_log (df : DataFrame) : list LogRecord :=
  if empty df then
    [mkLogRecord WARNING "DataFrame is empty, skipping cleaning process." false]
  else if negb (forallb (λ col, has_column col df) required_columns) then
    [mkLogRecord ERROR "Missing required columns in dataset." false]
  else if cleaning_completes df then []
  else [mkLogRecord ERROR "An error occurred while cleaning" true].

End StageLog.

(** The records of [add_hour_metrics]. *)
Definition add_hour_metrics_log (df : DataFrame) : list LogRecord :=
  if empty df then
    [mkLogRecord WARNING "DataFrame is empty, skipping hour metrics." false]
  else if metrics_complete df then []
  else [mkLogRecord ERROR "An error occurred while adding hour metrics" true].

(** ** Exporting *)

(** What [df.to_csv] does: it writes the file or raises. *)
Inductive ToCsv : Type :=
  | Written
  | RaiseOnWrite.

(** A completed [df.to_csv(path, sep=sep, index=True, encoding='utf-8')]. *)
Record Write : Type := mkWrite {
  path : string;
  sep : string;
  table : DataFrame
}.

Section Exporter.

(** The file system, seen through [df.to_csv(filename, sep=...)]. *)
Variable to_csv : DataFrame → string → string → ToCsv.

(** [export_dataset] returns nothing; its effects are the files written and
    the records logged. *)
Definition export_dataset (df : DataFrame) (filename delimiter : string)
  : Outcome unit * list Write * list LogRecord :=
  if empty df then
    (Returns (), [], [mkLogRecord WARNING "No data to export." false])
  else
    match to_csv df filename delimiter with
    | Written =>
        (Returns (), [mkWrite filename delimiter df],
         [mkLogRecord INFO "Exported dataset with %s rows and %s columns." false])
    | RaiseOnWrite =>
        (Returns (), [],
         [mkLogRecord ERROR "An error occurred while exporting" true])
    end.

End Exporter.

(** ** The scheduler and the process *)

Inductive JobFunction : Type :=
  | LoadDatasetJob
  | GetCleanedDatasetJob
  | AddHourMetricsJob
  | ExportDatasetJob.

#[global] Instance JobFunction_eq_dec : EqDecision JobFunction.
Proof. solve_decision. Defined.

(** Times and durations count microseconds, the resolution of [datetime]
    and [timedelta]. *)
Definition timedelta_seconds (s : Z) : Z := s * 1000000.
Definition timedelta_minutes (m : Z) : Z := timedelta_seconds (60 * m).

(** A job of the scheduler: what it calls, the interval of its trigger and
    the time of its first run. *)
Record Job : Type := mkJob {
  func : JobFunction;
  interval : Z;
  next_run_time : Z
}.

Record BackgroundScheduler : Type := mkScheduler {
  jobs : list Job;
  running : bool
}.

(** [BackgroundScheduler()] *)
Definition BackgroundScheduler_new : BackgroundScheduler := mkScheduler [] false.

(** [scheduler.add_job(f, 'interval', minutes=m, next_run_time=t)] *)
Definition add_job (f : JobFunction) (minutes next : Z)
    (s : BackgroundScheduler) : BackgroundScheduler :=
  {| jobs := jobs s ++ [mkJob f (timedelta_minutes minutes) next];
     running := running s |}.

(** [scheduler.start()] and [scheduler.shutdown()] *)
Definition start (s : BackgroundScheduler) : BackgroundScheduler :=
  {| jobs := jobs s; running := true |}.


(** The handler registered with [atexit]: a closure that reads the global
    [scheduler_instance] when the process exits. *)
Inductive ExitHandler : Type := ShutdownSchedulerInstance.

(** The process: its two module globals, and its effects so far. *)
Record Process : Type := mkProcess {
  measurements_data : DataFrame;
  scheduler_instance : option BackgroundScheduler;
  log : list LogRecord;
  written : list Write;
  exit_handlers : list ExitHandler
}.

(** The module when it is loaded. *)
Definition Process_new : Process := mkProcess DataFrame_new None [] [] [].

Definition set_data (df : DataFrame) (p : Process) : Process :=
  mkProcess df (scheduler_instance p) (log p) (written p) (exit_handlers p).

Definition set_scheduler (s : option BackgroundScheduler) (p : Process)
  : Process :=
  mkProcess (measurements_data p) s (log p) (written p) (exit_handlers p).

Definition logging (records : list LogRecord) (p : Process) : Process :=
  mkProcess (measurements_data p) (scheduler_instance p) (log p ++ records)
    (written p) (exit_handlers p).

Definition writing (writes : list Write) (p : Process) : Process :=
  mkProcess (measurements_data p) (scheduler_instance p) (log p)
    (written p ++ writes) (exit_handlers p).

Definition atexit_register (h : ExitHandler) (p : Process) : Process :=
  mkProcess (measurements_data p) (scheduler_instance p) (log p) (written p)
    (exit_handlers p ++ [h]).

Definition INPUT_FILE : string := "measurements_coding_challenge.csv".
Definition OUTPUT_FILE : string := "cleaned_measurements.csv".

Section Jobs.

Context {parsers : Parsers}.
Variable read_csv : string → string → ReadCsv.
Variable to_csv : DataFrame → string → string → ToCsv.

(** [measurements_data = load_dataset('measurements_coding_challenge.csv', ';')] *)
Definition load_dataset_job (p : Process) : Process :=
  let r := load_dataset read_csv INPUT_FILE ";" in
  match r.1 with
  | Returns df => set_data df (logging r.2 p)
  | Propagates => logging r.2 p
  end.

Definition get_cleaned_dataset_job (p : Process) : Process :=
  if empty (measurements_data p) then
    logging [mkLogRecord WARNING "Skipping cleaning: No data loaded yet." false] p
  else
    set_data (get_cleaned_dataset (measurements_data p))
      (logging (get_cleaned_dataset_log (measurements_data p)) p).

Definition add_hour_metrics_job (p : Process) : Process :=
  if empty (measurements_data p) then
    logging [mkLogRecord WARNING "Skipping hour metrics: No data available." false] p
  else
    set_data (add_hour_metrics (measurements_data p))
      (logging (add_hour_metrics_log (measurements_data p)) p).

Definition export_dataset_job (p : Process) : Process :=
  if empty (measurements_data p) then
    logging [mkLogRecord WARNING "Skipping export: No data available." false] p
  else
    let r := export_dataset to_csv (measurements_data p) OUTPUT_FILE "," in
    writing r.1.2 (logging r.2 p).

(** What the scheduler calls when a job fires. *)
Definition run_job (f : JobFunction) : Process → Process :=
  match f with
  | LoadDatasetJob => load_dataset_job
  | GetCleanedDatasetJob => get_cleaned_dataset_job
  | AddHourMetricsJob => add_hour_metrics_job
  | ExportDatasetJob => export_dataset_job
  end.

(** The jobs of a list, fired one after the other. *)
Definition run_jobs (fs : list JobFunction) (p : Process) : Process :=
  foldl (λ p f, run_job f p) p fs.

End Jobs.

(** The four readings of [datetime.now()] in [schedule_pipeline], in the
    order of the calls. *)
Record Clock : Type := mkClock {
  now1 : Z;
  now2 : Z;
  now3 : Z;
  now4 : Z
}.

Definition schedule_pipeline (c : Clock) (p : Process) : Process :=
  match scheduler_instance p with
  | Some _ =>
      logging [mkLogRecord WARNING
                 "Scheduler is already running. Skipping duplicate scheduling."
                 false] p
  | None =>
      let s := BackgroundScheduler_new in
      let s := add_job LoadDatasetJob 5 (now1 c) s in
      let s := add_job GetCleanedDatasetJob 5 (now2 c + timedelta_seconds 10) s in
      let s := add_job AddHourMetricsJob 5 (now3 c + timedelta_seconds 15) s in
      let s := add_job ExportDatasetJob 5 (now4 c + timedelta_seconds 20) s in
      let s := start s in
      atexit_register ShutdownSchedulerInstance
        (logging [mkLogRecord INFO "Pipeline scheduler started." false]
           (set_scheduler (Some s) p))
  end.

(** [while True: schedule_pipeline(); time.sleep(60)], for as many turns as
    there are clocks. *)
Definition main_loop (clocks : list Clock) (p : Process) : Process :=
  foldl (λ p c, schedule_pipeline c p) p clocks.



(** ** Vocabulary of the properties *)

(** The definitions below are not part of the program: they name the
    tables, rows and conditions that the properties speak about. *)

Definition with_rows (df : DataFrame) (rs : list (Cell * gmap string Cell))
  : DataFrame :=
  {| columns := columns df; rows := rs |}.

Definition map_rows (f : gmap string Cell → gmap string Cell)
    (df : DataFrame) : DataFrame :=
  with_rows df ((λ r, (r.1, f r.2)) <$> rows df).

(** The rows kept by [df[~df.index.duplicated(keep='first')]], when the
    labels in [seen] count as already met. *)
Definition first_occurrences_from {A : Type} (seen : list Cell)
    (rs : list (Cell * A)) : list (Cell * A) :=
  boolean_mask (negb <$> duplicated_from seen (fst <$> rs)) rs.

(** The table has the four required columns. *)
Definition has_required (df : DataFrame) : Prop :=
  Forall (λ col, col ∈ columns df) required_columns.

(** The row is no test fixture of the meter. *)
Definition not_dev_test (r : Cell * gmap string Cell) : Prop :=
  ne_text DEV_TEST (cell DIRECT_CONSUMPTION r.2) = true.

(** The three metrics of the row are integers. *)
Definition integer_row (r : Cell * gmap string Cell) : Prop :=
  ∃ p f d, r.2 !! GRID_PURCHASE = Some (CInt p)
           ∧ r.2 !! GRID_FEEDIN = Some (CInt f)
           ∧ r.2 !! DIRECT_CONSUMPTION = Some (CInt d).

Section CleanerVocabulary.

Context {parsers : Parsers}.

(** The integer a value is coerced to by Task #2. *)
Definition coerced (c : Cell) : Z :=
  match to_numeric c with
  | Finite z => z
  | _ => 0
  end.

(** A row with its flag set, as Task #7 does. *)
Definition set_flag (m : gmap string Cell) : gmap string Cell :=
  <[DIRECT_CONSUMPTION_FLAG :=
      CBool (bool_decide (0 < coerced (cell DIRECT_CONSUMPTION m)))]> m.

(** The numeric columns of a row after Task #2. *)
Definition coerce_row (m : gmap string Cell) : gmap string Cell :=
  <[DIRECT_CONSUMPTION := CInt (coerced (cell DIRECT_CONSUMPTION m))]>
    (<[GRID_FEEDIN := CInt (coerced (cell GRID_FEEDIN m))]>
       (<[GRID_PURCHASE := CInt (coerced (cell GRID_PURCHASE m))]> m)).

(** The label a raw row is indexed by: its parsed timestamp. *)
Definition row_label (m : gmap string Cell) : Cell :=
  to_datetime (cell TIMESTAMP m).

(** What the cleaner makes of a raw row that it keeps. *)
Definition clean_row (m : gmap string Cell) : gmap string Cell :=
  <[DIRECT_CONSUMPTION_FLAG :=
      CBool (bool_decide (0 < coerced (cell DIRECT_CONSUMPTION m)))]>
    (delete TIMESTAMP (delete DATE (coerce_row m))).

(** The raw rows that reach the index: no test fixture, and a timestamp
    that parses. *)
Definition survives (r : Cell * gmap string Cell) : Prop :=
  not_dev_test r ∧ row_label r.2 ≠ CNull.

#[global] Instance survives_dec r : Decision (survives r).
Proof. unfold survives, not_dev_test. apply _. Defined.

Definition cleaned_columns_of (cols : list string) : list string :=
  let kept := filter (λ c, c ≠ TIMESTAMP) (filter (λ c, c ≠ DATE) cols) in
  if bool_decide (DIRECT_CONSUMPTION_FLAG ∈ kept) then kept
  else kept ++ [DIRECT_CONSUMPTION_FLAG].

(** The result of a cleaning that runs to the end. *)
Definition cleaned_table (df : DataFrame) : DataFrame :=
  {| columns := cleaned_columns_of (columns df);
     rows := first_occurrences_from []
               ((λ r, (row_label r.2, clean_row r.2))
                <$> filter survives (rows df)) |}.

(** No numeric cell of a row that passes Task #1 is an infinity. *)
Definition finite_numbers (df : DataFrame) : Prop :=
  Forall (λ r, not_dev_test r →
               Forall (λ col, to_numeric (cell col r.2) ≠ Infinite)
                 numeric_columns)
    (rows df).

(** A numeric column holds an infinity in a row that passes Task #1. *)
Definition infinite_in (col : string) (df : DataFrame) : Prop :=
  Exists (λ r, to_numeric (cell col r.2) = Infinite)
    (filter not_dev_test (rows df)).

(** The table once the test fixtures are removed and the columns [done]
    are coerced. *)
Definition partial_table (done : list string) (df : DataFrame) : DataFrame :=
  foldl (λ t col, map_rows (λ m, <[col := CInt (coerced (cell col m))]> m) t)
    (with_rows df (filter not_dev_test (rows df))) done.

(** The statements up to the indexing, and those after it. *)
Definition indexing_steps : list Statement :=
  [remove_dev_test]
  ++ (coerce_numeric <$> numeric_columns)
  ++ [drop_date; convert_timestamp; index_by_timestamp].

Definition finishing_steps : list Statement :=
  [drop_duplicates; fill_missing [GRID_PURCHASE; GRID_FEEDIN]; add_flag].

(** The table after Task #5's first statement. *)
Definition indexed_table (df : DataFrame) : DataFrame :=
  {| columns := filter (λ c, c ≠ TIMESTAMP) (filter (λ c, c ≠ DATE) (columns df));
     rows := (λ r, (row_label r.2,
                    delete TIMESTAMP (delete DATE (coerce_row r.2))))
             <$> filter survives (rows df) |}.

End CleanerVocabulary.

(** A table "already cleaned", as the idempotence property words it: the
    required columns are there, no row is a test fixture and no timestamp
    occurs twice. *)
Definition already_cleaned (t : DataFrame) : Prop :=
  has_required t
  ∧ Forall (λ r, cell DIRECT_CONSUMPTION r.2 ≠ CStr DEV_TEST) (rows t)
  ∧ NoDup ((λ r, cell TIMESTAMP r.2) <$> rows t).

(** Its cells hold cleaned values: parsed timestamps and integers. *)
Definition cleaned_cells (t : DataFrame) : Prop :=
  Forall (λ r, (∃ ns, r.2 !! TIMESTAMP = Some (CTime ns)) ∧ integer_row r)
    (rows t).

(** The columns the cleaner reads or writes. *)
Definition cleaner_columns : list string :=
  [TIMESTAMP; GRID_PURCHASE; GRID_FEEDIN; DIRECT_CONSUMPTION; DATE;
   DIRECT_CONSUMPTION_FLAG].

(** A row without them. *)
Definition other_cells (m : gmap string Cell) : gmap string Cell :=
  filter (λ kv, kv.1 ∉ cleaner_columns) m.

(** [df'] has every other column of [df], and its rows are rows of [df], in
    order, with every other cell as it was. *)
Definition passes_through (df df' : DataFrame) : Prop :=
  (∀ c, c ∉ cleaner_columns → c ∈ columns df → c ∈ columns df')
  ∧ (λ r, other_cells r.2) <$> rows df'
    `sublist_of` (λ r, other_cells r.2) <$> rows df.

Definition timestamp_of (l : Cell) : Z :=
  match l with
  | CTime ns => ns
  | _ => 0
  end.

Definition int_of (c : Cell) : Z := default 0 (as_int c).

(** The hour of the day and the calendar day of a record. *)
Definition row_hour (r : Cell * gmap string Cell) : Z :=
  hour_of (timestamp_of r.1).

Definition row_day (r : Cell * gmap string Cell) : Z :=
  floor_day (timestamp_of r.1).

(** The index is a [DatetimeIndex]. *)
Definition timestamp_indexed (df : DataFrame) : Prop :=
  Forall (λ r, is_Some (match r.1 with CTime ns => Some ns | _ => None end))
    (rows df).

(** The column is there and holds integers. *)
Definition integer_column (col : string) (df : DataFrame) : Prop :=
  col ∈ columns df ∧ Forall (λ r, is_Some (as_int (cell col r.2))) (rows df).

(** What the aggregation needs of a cleaned table beyond its
    [DatetimeIndex]: integer [grid_purchase] and [grid_feedin] columns to
    sum, and no column that already bears the name of a total. *)
Definition aggregable (df : DataFrame) : Prop :=
  integer_column GRID_PURCHASE df ∧ integer_column GRID_FEEDIN df
  ∧ (GRID_PURCHASE_TOTAL ∉ columns df) ∧ (GRID_FEEDIN_TOTAL ∉ columns df).

#[global] Instance timestamp_indexed_dec df : Decision (timestamp_indexed df).
Proof. unfold timestamp_indexed. apply _. Defined.

#[global] Instance aggregable_dec df : Decision (aggregable df).
Proof. unfold aggregable, integer_column. apply _. Defined.

(** The sum of a column over the rows of an hour of the day. *)
Definition hour_total (col : string) (df : DataFrame) (h : Z) : Z :=
  sum_Z ((λ r, int_of (cell col r.2)) <$> filter (λ r, row_hour r = h) (rows df)).

(** The values of a column over the rows of a calendar day. *)
Definition day_values (col : string) (df : DataFrame) (d : Z) : list Z :=
  (λ r, int_of (cell col r.2)) <$> filter (λ r, row_day r = d) (rows df).

Definition is_day_max (col : string) (df : DataFrame)
    (r : Cell * gmap string Cell) : bool :=
  bool_decide (maximum (day_values col df (row_day r))
               = Some (int_of (cell col r.2))).

(** The table after [df['hour'] = df.index.hour]. *)
Definition with_hour (df : DataFrame) : DataFrame :=
  setitem HOUR ((λ r, CInt (row_hour r)) <$> rows df) df.

Definition append_new (col : string) (cols : list string) : list string :=
  if bool_decide (col ∈ cols) then cols else cols ++ [col].

(** The per-hour totals, with their columns renamed. *)
Definition totals_row (df : DataFrame) (k : Cell) : Cell * gmap string Cell :=
  (k, <[GRID_PURCHASE_TOTAL := CInt (hour_total GRID_PURCHASE df (int_of k))]>
        (<[GRID_FEEDIN_TOTAL := CInt (hour_total GRID_FEEDIN df (int_of k))]> ∅)).

Definition totals_table (df : DataFrame) : DataFrame :=
  {| columns := [GRID_PURCHASE_TOTAL; GRID_FEEDIN_TOTAL];
     rows := totals_row df
             <$> remove_dups ((λ r, CInt (row_hour r)) <$> rows df) |}.

(** The table after the join with the totals. *)
Definition with_totals (df : DataFrame) : DataFrame :=
  {| columns := append_new HOUR (columns df)
                ++ [GRID_PURCHASE_TOTAL; GRID_FEEDIN_TOTAL];
     rows := (λ r, (r.1,
                <[GRID_PURCHASE_TOTAL := CInt (hour_total GRID_PURCHASE df (row_hour r))]>
                  (<[GRID_FEEDIN_TOTAL := CInt (hour_total GRID_FEEDIN df (row_hour r))]>
                     (<[HOUR := CInt (row_hour r)]> r.2))))
             <$> rows df |}.

(** The cells of an enriched row. *)
Definition enrich (df : DataFrame) (r : Cell * gmap string Cell)
  : gmap string Cell :=
  <[MAX_GRID_FEEDIN_HOUR := CBool (is_day_max GRID_FEEDIN df r)]>
    (<[MAX_GRID_PURCHASE_HOUR := CBool (is_day_max GRID_PURCHASE df r)]>
       (delete HOUR
          (<[GRID_PURCHASE_TOTAL := CInt (hour_total GRID_PURCHASE df (row_hour r))]>
             (<[GRID_FEEDIN_TOTAL := CInt (hour_total GRID_FEEDIN df (row_hour r))]>
                (<[HOUR := CInt (row_hour r)]> r.2))))).

Definition enriched_columns (cols : list string) : list string :=
  append_new MAX_GRID_FEEDIN_HOUR
    (append_new MAX_GRID_PURCHASE_HOUR
       (filter (λ c, c ≠ HOUR)
          (append_new HOUR cols ++ [GRID_PURCHASE_TOTAL; GRID_FEEDIN_TOTAL]))).

(** The result of an aggregation that runs to the end. *)
Definition enriched_table (df : DataFrame) : DataFrame :=
  {| columns := enriched_columns (columns df);
     rows := (λ r, (r.1, enrich df r)) <$> rows df |}.

Definition metric_columns : list string :=
  [GRID_PURCHASE_TOTAL; GRID_FEEDIN_TOTAL; MAX_GRID_PURCHASE_HOUR;
   MAX_GRID_FEEDIN_HOUR].

(** The cleaner runs its steps on the table: it is not empty and has the
    required columns. *)
Definition accepted (df : DataFrame) : Prop :=
  empty df = false ∧ has_required df.

#[global] Instance has_required_dec df : Decision (has_required df).
Proof. unfold has_required. apply _. Defined.

#[global] Instance accepted_dec df : Decision (accepted df).
Proof. unfold accepted. apply _. Defined.

(** The columns of a cleaned and enriched table, in the order of the
    exported file. *)
Definition exported_columns : list string :=
  [GRID_PURCHASE; GRID_FEEDIN; DIRECT_CONSUMPTION; DIRECT_CONSUMPTION_FLAG;
   GRID_PURCHASE_TOTAL; GRID_FEEDIN_TOTAL; MAX_GRID_PURCHASE_HOUR;
   MAX_GRID_FEEDIN_HOUR].

(** The jobs that work on the snapshot that the load job leaves. *)
Definition downstream (f : JobFunction) : Prop := f ≠ LoadDatasetJob.

(** One cycle of the pipeline, in the order of the first runs. *)
Definition cycle : list JobFunction :=
  [LoadDatasetJob; GetCleanedDatasetJob; AddHourMetricsJob; ExportDatasetJob].

(** The clock does not go backwards between the readings. *)
Definition steady (c : Clock) : Prop :=
  now1 c ≤ now2 c ∧ now2 c ≤ now3 c ∧ now3 c ≤ now4 c.

Definition is_warning (r : LogRecord) : Prop := levelname r = WARNING.

(** The table that [load_dataset] returns for an outcome of [read_csv]. *)
Definition loaded (r : ReadCsv) : DataFrame :=
  match r with
  | Parsed df => df
  | RaiseFileNotFoundError | RaiseException => DataFrame_new
  end.

(** [n] cycles of the pipeline, one after the other. *)
Definition cycles (n : nat) : list JobFunction := mjoin (replicate n cycle).

Definition is_error (r : LogRecord) : Prop := levelname r = ERROR.


Section Events.

Context {parsers : Parsers}.
Variable read_csv : string → string → ReadCsv.
Variable to_csv : DataFrame → string → string → ToCsv.



End Events.

(** The scheduler of the process is set up: it runs the four jobs of a
    cycle, each every five minutes. *)
Definition set_up (s : BackgroundScheduler) : Prop :=
  running s = true ∧ func <$> jobs s = cycle
  ∧ Forall (λ j, interval j = timedelta_minutes 5) (jobs s).

(** ** Building tables and parsing literals, for worked examples *)

(** A row, from the values of the columns in order. *)
Definition record (cols : list string) (cells : list Cell)
  : gmap string Cell :=
  list_to_map (zip cols cells).

(** [DataFrame(records, columns=cols)]: the rows are labelled 0, 1, 2, ...
    (a [RangeIndex]). *)
Definition from_records (cols : list string) (records : list (list Cell))
  : DataFrame :=
  {| columns := cols;
     rows := imap (λ i cells, (CInt (Z.of_nat i), record cols cells)) records |}.

(** A table with a given index. *)
Definition indexed (cols : list string) (records : list (Cell * list Cell))
  : DataFrame :=
  {| columns := cols;
     rows := (λ r, (r.1, record cols r.2)) <$> records |}.

Definition digit_of (a : ascii) : option Z :=
  let n := Z.of_N (N_of_ascii a) in
  if bool_decide (48 ≤ n ≤ 57) then Some (n - 48) else None.

Fixpoint digits_value (acc : Z) (s : string) : option Z :=
  match s with
  | EmptyString => Some acc
  | String a s' => d ← digit_of a; digits_value (10 * acc + d) s'
  end.

(** A non-empty run of decimal digits. *)
Definition natural_literal (s : string) : option Z :=
  match s with
  | EmptyString => None
  | _ => digits_value 0 s
  end.

(** An instance of the numeric parser on integer literals and on the
    spellings of infinity; every other text counts as unparseable, so the
    examples use no decimal fractions. *)
Definition parse_number_literal (s : string) : Numeric :=
  if bool_decide (s ∈ ["inf"; "-inf"; "+inf"; "Infinity"; "-Infinity"]%string)
  then Infinite
  else match s with
       | String "-" s' => from_option (λ z, Finite (- z)) NaN (natural_literal s')
       | _ => from_option Finite NaN (natural_literal s)
       end.

(** Days since 1970-01-01 of a date of the proleptic Gregorian calendar. *)
Definition days_from_civil (y m d : Z) : Z :=
  let y' := if bool_decide (m ≤ 2) then y - 1 else y in
  let era := y' `div` 400 in
  let yoe := y' - era * 400 in
  let mp := if bool_decide (m ≤ 2) then m + 9 else m - 3 in
  let doy := (153 * mp + 2) `div` 5 + d - 1 in
  let doe := yoe * 365 + yoe `div` 4 - yoe `div` 100 + doy in
  era * 146097 + doe - 719468.

Definition is_leap (y : Z) : bool :=
  bool_decide (y `mod` 4 = 0 ∧ (y `mod` 100 ≠ 0 ∨ y `mod` 400 = 0)).

Definition days_in_month (y m : Z) : Z :=
  if bool_decide (m = 2) then (if is_leap y then 29 else 28)
  else if bool_decide (m ∈ [4; 6; 9; 11]) then 30 else 31.

(** The timestamp of a civil date and time of day. *)
Definition timestamp (y m d hh mm ss : Z) : Z :=
  days_from_civil y m d * NS_PER_DAY
  + ((hh * 60 + mm) * 60 + ss) * 1000000000.

(** An instance of the timestamp parser on the ISO 8601 form
    [YYYY-MM-DDTHH:MM:SS]; every other text counts as unparseable. *)
Definition parse_datetime_iso (s : string) : option Z :=
  let field i n := natural_literal (substring i n s) in
  let sep i a := bool_decide (get i s = Some a) in
  if bool_decide (String.length s = 19%nat)
     && sep 4%nat "-"%char && sep 7%nat "-"%char && sep 10%nat "T"%char
     && sep 13%nat ":"%char && sep 16%nat ":"%char
  then
    y ← field 0%nat 4%nat; m ← field 5%nat 2%nat; d ← field 8%nat 2%nat;
    hh ← field 11%nat 2%nat; mm ← field 14%nat 2%nat; ss ← field 17%nat 2%nat;
    if bool_decide (1 ≤ m ≤ 12 ∧ 1 ≤ d ≤ days_in_month y m
                    ∧ hh < 24 ∧ mm < 60 ∧ ss < 60)
    then Some (timestamp y m d hh mm ss) else None
  else None.

Definition literal_parsers : Parsers :=
  {| parse_number := parse_number_literal;
     parse_datetime := parse_datetime_iso |}.

(** The cleaner of the examples. *)
Definition clean : DataFrame → DataFrame :=
  get_cleaned_dataset (parsers := literal_parsers).

Definition raw_columns : list string :=
  [TIMESTAMP; GRID_PURCHASE; GRID_FEEDIN; DIRECT_CONSUMPTION].

(** The raw rows of the end-to-end example. *)
Definition example_raw : DataFrame :=
  from_records raw_columns
    [ [CStr "2024-01-01T00:00:00"; CInt 100; CInt 20; CStr "Dev test"];
      [CStr "2024-01-01T01:00:00"; CStr "abc"; CInt 30; CInt 10];
      [CStr "2024-01-01T01:00:00"; CInt 50; CInt 30; CInt 10] ].

Definition cleaned_columns : list string :=
  [GRID_PURCHASE; GRID_FEEDIN; DIRECT_CONSUMPTION; DIRECT_CONSUMPTION_FLAG].

Definition example_cleaned : DataFrame :=
  indexed cleaned_columns
    [ (CTime (timestamp 2024 1 1 1 0 0),
       [CInt 0; CInt 30; CInt 10; CBool true]) ].

(** A table that is already cleaned, with its four columns intact. *)
Definition cleaned_once : DataFrame :=
  from_records raw_columns
    [ [CTime (timestamp 2024 1 1 1 0 0); CInt 50; CInt 30; CInt 10] ].

(** A raw table whose [grid_feedin] holds an infinity. *)
Definition infinite_raw : DataFrame :=
  from_records raw_columns
    [ [CStr "2024-01-01T00:00:00"; CInt 100; CInt 20; CStr "Dev test"];
      [CStr "2024-01-01T01:00:00"; CStr "abc"; CStr "inf"; CInt 10] ].






(** A cleaned table over two days: two records tied at the maximum
    purchase of the first day, and two records at one o'clock. *)
Definition two_days : DataFrame :=
  indexed cleaned_columns
    [ (CTime (timestamp 2024 1 1 1 0 0), [CInt 5; CInt 30; CInt 10; CBool true]);
      (CTime (timestamp 2024 1 1 2 0 0), [CInt 5; CInt 3; CInt 10; CBool true]);
      (CTime (timestamp 2024 1 2 1 0 0), [CInt 7; CInt 4; CInt 0; CBool false]) ].

(** Its first row. *)
Definition first_record : gmap string Cell :=
  record cleaned_columns [CInt 5; CInt 30; CInt 10; CBool true].

(** A cleaned table that has a column named [hour]. *)
Definition hour_column_table : DataFrame :=
  indexed (cleaned_columns ++ [HOUR])
    [ (CTime (timestamp 2024 1 1 1 0 0),
       [CInt 5; CInt 30; CInt 10; CBool true; CStr "night"]) ].

(** A file system without the source file. *)
Definition no_such_file : string → string → ReadCsv :=
  λ _ _, RaiseFileNotFoundError.

(** Closed facts about the examples are settled by evaluation. *)
Ltac by_computation :=
  match goal with
  | |- ?P => apply (bool_decide_unpack P); vm_compute; exact I
  end.

Ltac in_cleaner_columns :=
  unfold cleaner_columns; rewrite !elem_of_cons; tauto.

(** A source file that holds the end-to-end example, and no other file. *)
Definition example_source : string → string → ReadCsv :=
  λ filename delimiter,
    if bool_decide (filename = INPUT_FILE ∧ delimiter = ";"%string)
    then Parsed example_raw else RaiseFileNotFoundError.

(** A destination that can be written, and one that cannot. *)
Definition writable : DataFrame → string → string → ToCsv := λ _ _ _, Written.
Definition read_only : DataFrame → string → string → ToCsv :=
  λ _ _ _, RaiseOnWrite.

(** Readings of a clock two microseconds apart. *)
Definition example_clock : Clock := mkClock 1000 1002 1004 1006.

(** A raw table of three distinct hours, with a [date] column. *)
Definition dated_raw : DataFrame :=
  from_records (raw_columns ++ [DATE])
    [ [CStr "2024-01-01T00:00:00"; CInt 1; CInt 2; CInt 3; CStr "2024-01-01"];
      [CStr "2024-01-01T01:00:00"; CStr ""; CInt 4; CInt 0; CStr "2024-01-01"];
      [CStr "2024-01-02T00:00:00"; CInt 7; CInt 1; CInt 9; CStr "2024-01-02"] ].

(** * Properties *)

(** ** Masks, first occurrences and [try] blocks *)

Lemma boolean_mask_fmap {A : Type} (f : A → bool) (l : list A) :
  boolean_mask (f <$> l) l = filter (λ x, f x = true) l.
Proof.
  induction l as [|x l IH]; [done|].
  cbn [fmap list_fmap boolean_mask]. rewrite IH.
  destruct (f x) eqn:Hx.
  - by rewrite filter_cons_True.
  - rewrite filter_cons_False; [done|]. by rewrite Hx.
Qed.

Lemma boolean_mask_compose {A B : Type} (g : B → bool) (f : A → B) (l : list A) :
  boolean_mask (g <$> (f <$> l)) l = filter (λ x, g (f x) = true) l.
Proof. rewrite <- list_fmap_compose. apply boolean_mask_fmap. Qed.

Lemma boolean_mask_sublist {A : Type} (mask : list bool) (l : list A) :
  boolean_mask mask l `sublist_of` l.
Proof.
  revert mask. induction l as [|x l IH]; intros [|[] mask]; cbn;
    try apply sublist_nil_l.
  - by apply sublist_skip.
  - by apply sublist_cons.
Qed.

Lemma zip_with_fmap_same {A B C : Type} (g : A → B → C) (h : A → B) (l : list A) :
  zip_with g l (h <$> l) = (λ x, g x (h x)) <$> l.
Proof. rewrite zip_with_fmap_r. apply zip_with_diag. Qed.

Lemma first_occurrences_cons {A : Type} seen (r : Cell * A) rs :
  first_occurrences_from seen (r :: rs) =
    if decide (r.1 ∈ seen) then first_occurrences_from (r.1 :: seen) rs
    else r :: first_occurrences_from (r.1 :: seen) rs.
Proof.
  unfold first_occurrences_from.
  cbn [fmap list_fmap duplicated_from boolean_mask].
  destruct (decide (r.1 ∈ seen)) as [Hin|Hin].
  - by rewrite bool_decide_eq_true_2.
  - by rewrite bool_decide_eq_false_2.
Qed.

Lemma first_occurrences_sublist {A : Type} seen (rs : list (Cell * A)) :
  first_occurrences_from seen rs `sublist_of` rs.
Proof. apply boolean_mask_sublist. Qed.


(** A table whose labels are pairwise distinct loses no row. *)
Lemma first_occurrences_NoDup {A : Type} seen (rs : list (Cell * A)) :
  NoDup (fst <$> rs) → (∀ k, k ∈ fst <$> rs → k ∉ seen) →
  first_occurrences_from seen rs = rs.
Proof.
  revert seen. induction rs as [|r rs IH]; intros seen Hnd Hseen; [done|].
  rewrite first_occurrences_cons. rewrite fmap_cons in Hnd, Hseen.
  apply NoDup_cons in Hnd as [Hr Hnd].
  rewrite decide_False by (apply Hseen; by left).
  f_equal. apply IH; [done|].
  intros k Hk. rewrite elem_of_cons. intros [->|Hin]; [done|].
  by apply (Hseen k); [right|].
Qed.

Lemma try_block_cons_Some (s : Statement) body df df' :
  s df = Some df' → try_block (s :: body) df = try_block body df'.
Proof. intros H. cbn. by rewrite H. Qed.

Lemma try_block_cons_None (s : Statement) body df :
  s df = None → try_block (s :: body) df = (false, df).
Proof. intros H. cbn. by rewrite H. Qed.

(** When a [try] block raises, the handler returns the table as the
    statements completed so far have left it. *)
Lemma try_block_raised body df d :
  try_block body df = (false, d) →
  ∃ done failing rest,
    body = done ++ failing :: rest ∧ try_block done df = (true, d)
    ∧ failing d = None.
Proof.
  revert df. induction body as [|s body IH]; intros df H; [done|].
  cbn in H. destruct (s df) as [df'|] eqn:Hs.
  - destruct (IH _ H) as (dn & f & rest & -> & Hd & Hf).
    exists (s :: dn), f, rest. split_and!; [done| |done].
    by rewrite (try_block_cons_Some _ _ _ _ Hs).
  - injection H as <-. by exists [], s, body.
Qed.

Lemma Forall_sublist_of {A : Type} (P : A → Prop) (l1 l2 : list A) :
  l1 `sublist_of` l2 → Forall P l2 → Forall P l1.
Proof.
  intros Hsub. rewrite !Forall_forall. intros H x Hx.
  apply H. by apply (sublist_subseteq _ _ Hsub).
Qed.

Lemma try_block_app body1 body2 df :
  try_block (body1 ++ body2) df =
    if (try_block body1 df).1 then try_block body2 (try_block body1 df).2
    else try_block body1 df.
Proof.
  revert df. induction body1 as [|s body1 IH]; intros df; [done|].
  cbn. destruct (s df) as [df'|]; [apply IH|done].
Qed.

Lemma has_column_true col df : col ∈ columns df → has_column col df = true.
Proof. apply bool_decide_eq_true_2. Qed.

Lemma has_column_false col df : col ∉ columns df → has_column col df = false.
Proof. apply bool_decide_eq_false_2. Qed.

Lemma getitem_Some col df :
  col ∈ columns df → getitem col df = Some ((λ r, cell col r.2) <$> rows df).
Proof. intros H. unfold getitem. by rewrite has_column_true. Qed.

Lemma getitem_None col df : col ∉ columns df → getitem col df = None.
Proof. intros H. unfold getitem. by rewrite has_column_false. Qed.

Lemma setitem_present col (f : Cell → Cell) c df :
  col ∈ columns df →
  setitem col (f <$> ((λ r, cell c r.2) <$> rows df)) df
  = map_rows (λ m, <[col := f (cell c m)]> m) df.
Proof.
  intros H. unfold setitem, map_rows, with_rows. rewrite has_column_true by done.
  f_equal. rewrite <- list_fmap_compose. by rewrite zip_with_fmap_same.
Qed.

Lemma cell_insert_eq col v m : cell col (<[col := v]> m) = v.
Proof. unfold cell. by rewrite lookup_insert_eq. Qed.

Lemma cell_insert_ne col col' v m :
  col' ≠ col → cell col (<[col' := v]> m) = cell col m.
Proof. intros H. unfold cell. by rewrite lookup_insert_ne. Qed.

Lemma cell_delete_ne col col' m :
  col' ≠ col → cell col (delete col' m) = cell col m.
Proof. intros H. unfold cell. by rewrite lookup_delete_ne. Qed.

Lemma cell_Some col m v : m !! col = Some v → cell col m = v.
Proof. intros H. unfold cell. by rewrite H. Qed.

Section CleanerFacts.

Context {parsers : Parsers}.

Lemma astype_int_coerced (s : list Cell) :
  Forall (λ c, to_numeric c ≠ Infinite) s →
  astype_int ((λ c, fillna0 (to_numeric c)) <$> s) = Some (coerced <$> s).
Proof.
  unfold astype_int. induction 1 as [|c s Hc _ IH]; [done|].
  rewrite fmap_cons. cbn [mapM]. rewrite IH. unfold coerced.
  destruct (to_numeric c) eqn:E; cbn; rewrite ?fmap_cons, ?E; try done.
Qed.

Lemma astype_int_raises (s : list Cell) :
  Exists (λ c, to_numeric c = Infinite) s →
  astype_int ((λ c, fillna0 (to_numeric c)) <$> s) = None.
Proof.
  intros H. apply mapM_None. apply Exists_fmap.
  eapply Exists_impl; [exact H|]. intros c Hc. cbn. by rewrite Hc.
Qed.

Lemma remove_dev_test_spec df :
  DIRECT_CONSUMPTION ∈ columns df →
  remove_dev_test df = Some (with_rows df (filter not_dev_test (rows df))).
Proof.
  intros H. unfold remove_dev_test. rewrite getitem_Some by done. cbn.
  unfold select_rows, with_rows. do 2 f_equal. apply boolean_mask_compose.
Qed.

Lemma coerce_numeric_spec col df :
  col ∈ columns df →
  Forall (λ r, to_numeric (cell col r.2) ≠ Infinite) (rows df) →
  coerce_numeric col df
  = Some (map_rows (λ m, <[col := CInt (coerced (cell col m))]> m) df).
Proof.
  intros H Hfin. unfold coerce_numeric. rewrite getitem_Some by done. cbn.
  rewrite astype_int_coerced by (by apply Forall_fmap). cbn. f_equal.
  rewrite <- (list_fmap_compose coerced CInt).
  exact (setitem_present col (CInt ∘ coerced) col df H).
Qed.

Lemma coerce_numeric_raises col df :
  col ∈ columns df →
  Exists (λ r, to_numeric (cell col r.2) = Infinite) (rows df) →
  coerce_numeric col df = None.
Proof.
  intros H Hinf. unfold coerce_numeric. rewrite getitem_Some by done. cbn.
  rewrite astype_int_raises; [done|]. by apply Exists_fmap.
Qed.

Lemma convert_timestamp_spec df :
  TIMESTAMP ∈ columns df →
  convert_timestamp df
  = Some (map_rows (λ m, <[TIMESTAMP := to_datetime (cell TIMESTAMP m)]> m) df).
Proof.
  intros H. unfold convert_timestamp. rewrite getitem_Some by done. cbn.
  by rewrite setitem_present.
Qed.

Lemma index_by_timestamp_spec df :
  TIMESTAMP ∈ columns df →
  index_by_timestamp df
  = Some {| columns := filter (λ c, c ≠ TIMESTAMP) (columns df);
            rows := (λ r, (cell TIMESTAMP r.2, delete TIMESTAMP r.2))
                    <$> filter (λ r, cell TIMESTAMP r.2 ≠ CNull) (rows df) |}.
Proof.
  intros H. unfold index_by_timestamp, dropna. rewrite getitem_Some by done.
  cbn. unfold set_index, select_rows. cbn. rewrite has_column_true by done.
  do 3 f_equal. rewrite boolean_mask_compose.
  apply list_filter_iff. intros r. cbn. rewrite negb_true_iff.
  by rewrite bool_decide_eq_false.
Qed.

Lemma drop_duplicates_spec df :
  drop_duplicates df = Some (with_rows df (first_occurrences_from [] (rows df))).
Proof. done. Qed.

Lemma add_flag_spec df :
  DIRECT_CONSUMPTION ∈ columns df →
  Forall (λ r, ∃ z, cell DIRECT_CONSUMPTION r.2 = CInt z) (rows df) →
  add_flag df
  = Some {| columns := if has_column DIRECT_CONSUMPTION_FLAG df then columns df
                       else columns df ++ [DIRECT_CONSUMPTION_FLAG];
            rows := (λ r, (r.1, set_flag r.2)) <$> rows df |}.
Proof.
  intros H Hint. unfold add_flag. rewrite getitem_Some by done. cbn.
  assert (Hm : mapM gt_zero ((λ r, cell DIRECT_CONSUMPTION r.2) <$> rows df)
     = Some ((λ r, bool_decide (0 < coerced (cell DIRECT_CONSUMPTION r.2))) <$> rows df)).
  { apply mapM_Some. apply Forall2_fmap. apply Forall_Forall2_diag.
    eapply Forall_impl; [exact Hint|]. intros r [z Hz]. cbn. rewrite Hz. done. }
  rewrite Hm. cbn. unfold setitem. f_equal. f_equal.
  rewrite <- list_fmap_compose. by rewrite zip_with_fmap_same.
Qed.

End CleanerFacts.

Lemma filter_fmap_comm {A B : Type} (f : A → B) (P : B → Prop)
    `{!∀ x, Decision (P x)} (l : list A) :
  filter P (f <$> l) = f <$> filter (λ x, P (f x)) l.
Proof.
  induction l as [|x l IH]; [done|]. rewrite fmap_cons.
  destruct (decide (P (f x))).
  - rewrite !filter_cons_True by done. by rewrite fmap_cons, IH.
  - by rewrite !filter_cons_False by done.
Qed.

Lemma first_occurrences_fmap {A B : Type} (f : A → B) seen (rs : list (Cell * A)) :
  first_occurrences_from seen ((λ r, (r.1, f r.2)) <$> rs)
  = (λ r, (r.1, f r.2)) <$> first_occurrences_from seen rs.
Proof.
  revert seen. induction rs as [|r rs IH]; intros seen; [done|].
  rewrite fmap_cons, !first_occurrences_cons. cbn [fst].
  case_decide; by rewrite IH.
Qed.

Section CleanerRun.

Context {parsers : Parsers}.

Lemma has_required_forallb df :
  has_required df ↔ forallb (λ col, has_column col df) required_columns = true.
Proof.
  unfold has_required, required_columns, has_column. cbn.
  rewrite !Forall_cons, Forall_nil, !andb_true_iff, !bool_decide_eq_true.
  naive_solver.
Qed.

Lemma finite_numbers_filter df :
  finite_numbers df →
  Forall (λ r, to_numeric (cell GRID_PURCHASE r.2) ≠ Infinite
               ∧ to_numeric (cell GRID_FEEDIN r.2) ≠ Infinite
               ∧ to_numeric (cell DIRECT_CONSUMPTION r.2) ≠ Infinite)
    (filter not_dev_test (rows df)).
Proof.
  intros Hfin. apply Forall_forall. intros r Hr.
  apply list_elem_of_filter in Hr as [Hnd Hr].
  unfold finite_numbers in Hfin. rewrite Forall_forall in Hfin.
  specialize (Hfin r Hr Hnd). unfold numeric_columns in Hfin.
  rewrite !Forall_cons in Hfin. tauto.
Qed.

Lemma indexing_runs df :
  has_required df → finite_numbers df →
  try_block indexing_steps df = (true, indexed_table df).
Proof.
  intros Hreq Hfin0%finite_numbers_filter.
  unfold has_required, required_columns in Hreq.
  rewrite !Forall_cons in Hreq. destruct Hreq as (Hts & Hgp & Hgf & Hdc & _).
  unfold indexing_steps, numeric_columns. cbn [fmap list_fmap app].
  erewrite try_block_cons_Some; [|by apply remove_dev_test_spec].
  erewrite try_block_cons_Some; [|apply coerce_numeric_spec; [done|] ].
  2:{ cbn. eapply Forall_impl; [exact Hfin0|]. by intros r (Hp & Hf & Hd). }
  erewrite try_block_cons_Some; [|apply coerce_numeric_spec; [done|] ].
  2:{ cbn. apply Forall_fmap. eapply Forall_impl; [exact Hfin0|].
      intros r (Hp & Hf & Hd). cbn. by rewrite cell_insert_ne. }
  erewrite try_block_cons_Some; [|apply coerce_numeric_spec; [done|] ].
  2:{ cbn. apply Forall_fmap, Forall_fmap. eapply Forall_impl; [exact Hfin0|].
      intros r (Hp & Hf & Hd). cbn. by rewrite !cell_insert_ne. }
  erewrite try_block_cons_Some; [|reflexivity].
  erewrite try_block_cons_Some; [|apply convert_timestamp_spec].
  2:{ cbn. apply list_elem_of_filter. done. }
  erewrite try_block_cons_Some; [|apply index_by_timestamp_spec].
  2:{ cbn. apply list_elem_of_filter. done. }
  cbn [try_block]. f_equal. unfold indexed_table, map_rows, with_rows, drop_column.
  cbn [rows columns]. f_equal.
  rewrite <- !list_fmap_compose. rewrite filter_fmap_comm.
  rewrite list_filter_filter. rewrite <- list_fmap_compose.
  erewrite list_filter_iff.
  - apply list_fmap_ext. intros i r _. cbn.
    rewrite cell_insert_eq, delete_insert_eq, cell_delete_ne by done.
    by rewrite !cell_insert_ne by done.
  - intros r. cbn. rewrite cell_insert_eq, cell_delete_ne by done.
    rewrite !cell_insert_ne by done. unfold survives, row_label. tauto.
Qed.

Lemma setitem_fill_id col t :
  col ∈ columns t →
  Forall (λ r, ∃ z, r.2 !! col = Some (CInt z)) (rows t) →
  setitem col (cell_fillna0 <$> ((λ r, cell col r.2) <$> rows t)) t = t.
Proof.
  intros Hcol Hint. rewrite setitem_present by done.
  destruct t as [cs rs]. unfold map_rows, with_rows. cbn in *. f_equal.
  rewrite <- (list_fmap_id rs) at 2. apply Forall_fmap_ext_1.
  eapply Forall_impl; [exact Hint|]. intros [l m] [z Hz]. cbn in *.
  rewrite (cell_Some _ _ _ Hz). cbn. by rewrite insert_id.
Qed.

(** Task #6 changes nothing: the columns hold integers already. *)
Lemma fill_missing_id t :
  GRID_PURCHASE ∈ columns t → GRID_FEEDIN ∈ columns t →
  Forall integer_row (rows t) →
  fill_missing [GRID_PURCHASE; GRID_FEEDIN] t = Some t.
Proof.
  intros Hgp Hgf Hint. unfold fill_missing. cbn [mapM].
  rewrite !getitem_Some by done. cbn. f_equal.
  rewrite (setitem_fill_id GRID_FEEDIN).
  - rewrite setitem_fill_id; [done..|].
    eapply Forall_impl; [exact Hint|]. intros r (p & f & d & Hp & Hf & Hd). eauto.
  - done.
  - eapply Forall_impl; [exact Hint|]. intros r (p & f & d & Hp & Hf & Hd). eauto.
Qed.

Lemma finishing_runs t :
  GRID_PURCHASE ∈ columns t → GRID_FEEDIN ∈ columns t →
  DIRECT_CONSUMPTION ∈ columns t →
  Forall integer_row (rows t) →
  try_block finishing_steps t
  = (true,
     {| columns := if has_column DIRECT_CONSUMPTION_FLAG t then columns t
                   else columns t ++ [DIRECT_CONSUMPTION_FLAG];
        rows := (λ r, (r.1, set_flag r.2))
                <$> first_occurrences_from [] (rows t) |}).
Proof.
  intros Hgp Hgf Hdc Hint.
  unfold finishing_steps. cbn [fmap list_fmap app].
  erewrite try_block_cons_Some; [|apply drop_duplicates_spec].
  assert (Hint' : Forall integer_row (first_occurrences_from [] (rows t))).
  { eapply Forall_sublist_of; [|exact Hint]. apply first_occurrences_sublist. }
  erewrite try_block_cons_Some; [|by apply fill_missing_id].
  erewrite try_block_cons_Some; [|apply add_flag_spec; [done|] ].
  2:{ eapply Forall_impl; [exact Hint'|]. intros r (p & f & d & Hp & Hf & Hd).
      exists d. by apply cell_Some. }
  done.
Qed.

Lemma coerce_row_lookup m :
  coerce_row m !! GRID_PURCHASE = Some (CInt (coerced (cell GRID_PURCHASE m)))
  ∧ coerce_row m !! GRID_FEEDIN = Some (CInt (coerced (cell GRID_FEEDIN m)))
  ∧ coerce_row m !! DIRECT_CONSUMPTION
    = Some (CInt (coerced (cell DIRECT_CONSUMPTION m))).
Proof.
  unfold coerce_row. split_and!.
  - by rewrite !lookup_insert_ne, lookup_insert_eq by done.
  - by rewrite lookup_insert_ne, lookup_insert_eq by done.
  - by rewrite lookup_insert_eq.
Qed.

Lemma coerced_CInt z : coerced (CInt z) = z.
Proof. done. Qed.

Lemma cleaning_steps_split :
  cleaning_steps = indexing_steps ++ finishing_steps.
Proof. done. Qed.

(** The cleaning steps on a table that has the required columns and no
    infinite number: they run to the end, and the result is
    [cleaned_table]. *)
Lemma cleaning_runs df :
  has_required df → finite_numbers df →
  try_block cleaning_steps df
  = (true, cleaned_table df).
Proof.
  intros Hreq Hfin. rewrite cleaning_steps_split, try_block_app.
  rewrite indexing_runs by done. cbn [fst snd].
  pose proof Hreq as Hreq'. unfold has_required, required_columns in Hreq'.
  rewrite !Forall_cons in Hreq'. destruct Hreq' as (Hts & Hgp & Hgf & Hdc & _).
  rewrite finishing_runs.
  - unfold cleaned_table, indexed_table, cleaned_columns_of, has_column.
    cbn [rows columns]. f_equal. f_equal.
    rewrite <- (first_occurrences_fmap set_flag).
    f_equal. rewrite <- list_fmap_compose. apply list_fmap_ext.
    intros i r _. unfold compose, clean_row, set_flag. cbn [fst snd].
    rewrite !cell_delete_ne by done.
    destruct (coerce_row_lookup r.2) as (_ & _ & Hd).
    by rewrite (cell_Some _ _ _ Hd).
  - cbn. rewrite !list_elem_of_filter. done.
  - cbn. rewrite !list_elem_of_filter. done.
  - cbn. rewrite !list_elem_of_filter. done.
  - cbn. apply Forall_fmap, Forall_forall. intros r _. unfold integer_row. cbn.
    destruct (coerce_row_lookup r.2) as (Hp & Hf & Hd).
    rewrite !lookup_delete_ne by done.
    do 3 eexists. split_and!; [apply Hp|apply Hf|apply Hd].
Qed.

End CleanerRun.

Section CleanerOutcome.

Context {parsers : Parsers}.

Lemma not_infinite_in col df :
  ¬ infinite_in col df →
  Forall (λ r, to_numeric (cell col r.2) ≠ Infinite)
    (filter not_dev_test (rows df)).
Proof. intros H. by apply not_Exists_Forall in H; [|apply _]. Qed.

Lemma finite_numbers_iff df :
  finite_numbers df ↔ Forall (λ col, ¬ infinite_in col df) numeric_columns.
Proof.
  unfold finite_numbers, infinite_in. split.
  - intros H. apply Forall_forall. intros col Hcol Hex.
    apply Exists_exists in Hex as (r & Hr & Hinf).
    apply list_elem_of_filter in Hr as [Hnd Hr].
    rewrite Forall_forall in H. specialize (H r Hr Hnd).
    rewrite Forall_forall in H. by apply (H col).
  - intros H. apply Forall_forall. intros r Hr Hnd.
    apply Forall_forall. intros col Hcol Hinf.
    rewrite Forall_forall in H. apply (H col Hcol).
    apply Exists_exists. exists r. split; [|done].
    by apply list_elem_of_filter.
Qed.

(** When a numeric column holds an infinity, [astype(int)] raises in the
    middle of Task #2, and the handler returns the table as coerced so
    far. *)
Lemma cleaning_raises df :
  has_required df → ¬ finite_numbers df →
  ∃ done col rest,
    numeric_columns = done ++ col :: rest
    ∧ infinite_in col df
    ∧ try_block cleaning_steps df = (false, partial_table done df).
Proof.
  intros Hreq Hnf. rewrite finite_numbers_iff in Hnf.
  unfold has_required, required_columns in Hreq.
  rewrite !Forall_cons in Hreq. destruct Hreq as (Hts & Hgp & Hgf & Hdc & _).
  unfold cleaning_steps, numeric_columns in *. cbn [fmap list_fmap app].
  erewrite try_block_cons_Some; [|by apply remove_dev_test_spec].
  destruct (decide (infinite_in GRID_PURCHASE df)) as [H1|H1].
  { exists [], GRID_PURCHASE, [GRID_FEEDIN; DIRECT_CONSUMPTION].
    split_and!; [done..|]. by rewrite try_block_cons_None
      by (by apply coerce_numeric_raises). }
  pose proof (not_infinite_in _ _ H1) as F1.
  erewrite try_block_cons_Some; [|by apply coerce_numeric_spec].
  destruct (decide (infinite_in GRID_FEEDIN df)) as [H2|H2].
  { exists [GRID_PURCHASE], GRID_FEEDIN, [DIRECT_CONSUMPTION].
    split_and!; [done..|]. rewrite try_block_cons_None; [done|].
    apply coerce_numeric_raises; [done|]. cbn. apply Exists_fmap.
    eapply Exists_impl; [exact H2|]. intros r Hr. cbn.
    by rewrite cell_insert_ne. }
  pose proof (not_infinite_in _ _ H2) as F2.
  erewrite try_block_cons_Some; [|apply coerce_numeric_spec; [done|] ].
  2:{ cbn. apply Forall_fmap. eapply Forall_impl; [exact F2|].
      intros r Hr. cbn. by rewrite cell_insert_ne. }
  destruct (decide (infinite_in DIRECT_CONSUMPTION df)) as [H3|H3].
  { exists [GRID_PURCHASE; GRID_FEEDIN], DIRECT_CONSUMPTION, [].
    split_and!; [done..|]. rewrite try_block_cons_None; [done|].
    apply coerce_numeric_raises; [done|]. cbn. apply Exists_fmap, Exists_fmap.
    eapply Exists_impl; [exact H3|]. intros r Hr. cbn.
    by rewrite !cell_insert_ne. }
  exfalso. apply Hnf. by repeat constructor.
Qed.

Lemma completes_iff df :
  has_required df → cleaning_completes df = true ↔ finite_numbers df.
Proof.
  intros Hreq. unfold cleaning_completes. split.
  - intros Hc. destruct (decide (finite_numbers df)) as [|Hnf]; [done|].
    destruct (cleaning_raises df Hreq Hnf) as (dn & col & rest & _ & _ & Hr).
    by rewrite Hr in Hc.
  - intros Hfin. by rewrite cleaning_runs.
Qed.

Lemma cleaner_body df :
  empty df = false → has_required df →
  get_cleaned_dataset df = (try_block cleaning_steps df).2.
Proof.
  intros He Hreq. unfold get_cleaned_dataset. rewrite He.
  apply has_required_forallb in Hreq. by rewrite Hreq.
Qed.

(** The cleaner on a table that it accepts, when no step raises. *)
Lemma cleaner_completed df :
  empty df = false → has_required df → cleaning_completes df = true →
  get_cleaned_dataset df = cleaned_table df.
Proof.
  intros He Hreq Hc. rewrite cleaner_body by done.
  apply completes_iff in Hc; [|done]. by rewrite cleaning_runs.
Qed.

End CleanerOutcome.


Lemma filter_all {A : Type} (P : A → Prop) `{!∀ x, Decision (P x)} (l : list A) :
  Forall P l → filter P l = l.
Proof.
  induction 1 as [|x l Hx _ IH]; [done|]. by rewrite filter_cons_True, IH.
Qed.

Section CleanerRows.

Context {parsers : Parsers}.

Lemma clean_row_lookup m :
  clean_row m !! GRID_PURCHASE = Some (CInt (coerced (cell GRID_PURCHASE m)))
  ∧ clean_row m !! GRID_FEEDIN = Some (CInt (coerced (cell GRID_FEEDIN m)))
  ∧ clean_row m !! DIRECT_CONSUMPTION
    = Some (CInt (coerced (cell DIRECT_CONSUMPTION m)))
  ∧ clean_row m !! DIRECT_CONSUMPTION_FLAG
    = Some (CBool (bool_decide (0 < coerced (cell DIRECT_CONSUMPTION m)))).
Proof.
  destruct (coerce_row_lookup m) as (Hp & Hf & Hd).
  unfold clean_row. split_and!.
  - by rewrite lookup_insert_ne, !lookup_delete_ne.
  - by rewrite lookup_insert_ne, !lookup_delete_ne.
  - by rewrite lookup_insert_ne, !lookup_delete_ne.
  - by rewrite lookup_insert_eq.
Qed.


(** Every row of the output comes from a raw row that survives. *)
Lemma cleaned_row_origin df l m :
  (l, m) ∈ rows (cleaned_table df) →
  ∃ r, r ∈ rows df ∧ survives r ∧ l = row_label r.2 ∧ m = clean_row r.2.
Proof.
  unfold cleaned_table. cbn [rows]. intros Hin.
  apply (sublist_subseteq _ _ (first_occurrences_sublist _ _)) in Hin.
  apply list_elem_of_fmap in Hin as (r & Heq & Hr).
  apply list_elem_of_filter in Hr as [Hs Hr]. injection Heq as -> ->.
  by exists r.
Qed.



End CleanerRows.

(** ** What the cleaner leaves alone *)

Lemma passes_through_refl df : passes_through df df.
Proof. split; [done|]. reflexivity. Qed.

Lemma passes_through_trans df1 df2 df3 :
  passes_through df1 df2 → passes_through df2 df3 → passes_through df1 df3.
Proof. intros [Hc1 Hs1] [Hc2 Hs2]. split; [naive_solver|]. by etrans. Qed.

Lemma other_cells_insert col v m :
  col ∈ cleaner_columns → other_cells (<[col := v]> m) = other_cells m.
Proof. intros H. apply map_filter_insert_not. intros y. cbn. tauto. Qed.

Lemma other_cells_delete col m :
  col ∈ cleaner_columns → other_cells (delete col m) = other_cells m.
Proof. intros H. apply map_filter_delete_not. intros y _. cbn. tauto. Qed.


Lemma select_rows_passes mask df : passes_through df (select_rows mask df).
Proof.
  split; [done|]. cbn. apply fmap_sublist, boolean_mask_sublist.
Qed.

Lemma setitem_passes col values df :
  col ∈ cleaner_columns → passes_through df (setitem col values df).
Proof.
  intros Hcol. split.
  - intros c _ Hc. cbn. destruct (has_column col df); [done|].
    apply elem_of_app. by left.
  - cbn. generalize (rows df). intros rs. revert values.
    induction rs as [|r rs IH]; intros [|v values]; cbn;
      try apply sublist_nil_l.
    rewrite other_cells_insert by done. apply sublist_skip, IH.
Qed.

Lemma drop_column_passes col df :
  col ∈ cleaner_columns → passes_through df (drop_column col df).
Proof.
  intros Hcol. split.
  - intros c Hc Hin. cbn. apply list_elem_of_filter. split; [|done].
    by intros ->.
  - cbn. rewrite <- list_fmap_compose. erewrite list_fmap_ext; [reflexivity|].
    intros i r _. cbn. by rewrite other_cells_delete.
Qed.

Lemma set_index_passes col df df' :
  col ∈ cleaner_columns → set_index col df = Some df' → passes_through df df'.
Proof.
  intros Hcol. unfold set_index. destruct (has_column col df); [|done].
  intros [= <-]. split.
  - intros c Hc Hin. cbn. apply list_elem_of_filter. split; [|done].
    by intros ->.
  - cbn. rewrite <- list_fmap_compose. erewrite list_fmap_ext; [reflexivity|].
    intros i r _. cbn. by rewrite other_cells_delete.
Qed.


Section Frame.

Context {parsers : Parsers}.

(** Every statement of the cleaner passes the other columns through. *)
Lemma cleaning_steps_pass :
  Forall (λ s : Statement, ∀ df df', s df = Some df' → passes_through df df')
    cleaning_steps.
Proof.
  unfold cleaning_steps, numeric_columns. cbn [fmap list_fmap app].
  repeat apply Forall_cons_2; [..|apply Forall_nil_2]; intros df df' H.
  - unfold remove_dev_test in H. destruct (getitem _ df); [|done].
    injection H as <-. apply select_rows_passes.
  - unfold coerce_numeric in H. destruct (getitem _ df); [|done]. cbn in H.
    destruct (astype_int _); [|done]. injection H as <-.
    apply setitem_passes. in_cleaner_columns.
  - unfold coerce_numeric in H. destruct (getitem _ df); [|done]. cbn in H.
    destruct (astype_int _); [|done]. injection H as <-.
    apply setitem_passes. in_cleaner_columns.
  - unfold coerce_numeric in H. destruct (getitem _ df); [|done]. cbn in H.
    destruct (astype_int _); [|done]. injection H as <-.
    apply setitem_passes. in_cleaner_columns.
  - injection H as <-. apply drop_column_passes. in_cleaner_columns.
  - unfold convert_timestamp in H. destruct (getitem _ df); [|done].
    injection H as <-. apply setitem_passes. in_cleaner_columns.
  - unfold index_by_timestamp, dropna in H. destruct (getitem _ df); [|done].
    cbn in H. eapply passes_through_trans; [apply select_rows_passes|].
    eapply set_index_passes; [|exact H]. in_cleaner_columns.
  - injection H as <-. apply select_rows_passes.
  - unfold fill_missing in H. cbn [mapM] in H.
    destruct (getitem GRID_PURCHASE df); [|done].
    destruct (getitem GRID_FEEDIN df); [|done]. cbn in H. injection H as <-.
    eapply passes_through_trans; apply setitem_passes; in_cleaner_columns.
  - unfold add_flag in H. destruct (getitem _ df); [|done]. cbn in H.
    destruct (mapM _ _); [|done]. injection H as <-.
    apply setitem_passes. in_cleaner_columns.
Qed.

Lemma try_block_passes body df :
  Forall (λ s : Statement, ∀ df df', s df = Some df' → passes_through df df')
    body →
  passes_through df (try_block body df).2.
Proof.
  intros H. revert df. induction H as [|s body Hs _ IH]; intros df.
  - apply passes_through_refl.
  - cbn. destruct (s df) as [df'|] eqn:E; [|apply passes_through_refl].
    eapply passes_through_trans; [by apply Hs|apply IH].
Qed.

Lemma cleaner_passes_through df :
  has_required df → passes_through df (get_cleaned_dataset df).
Proof.
  intros Hreq. unfold get_cleaned_dataset.
  destruct (empty df); [apply passes_through_refl|].
  apply has_required_forallb in Hreq. rewrite Hreq. cbn [negb].
  apply try_block_passes, cleaning_steps_pass.
Qed.


End Frame.

Section Idempotence.

Context {parsers : Parsers}.

Lemma timestamp_not_cleaned cols : TIMESTAMP ∉ cleaned_columns_of cols.
Proof.
  unfold cleaned_columns_of. cbn. case_bool_decide.
  - rewrite list_elem_of_filter. tauto.
  - rewrite elem_of_app, list_elem_of_filter, list_elem_of_singleton.
    intros [[? _]|?]; done.
Qed.

(** A non-empty table without a [timestamp] column is rejected. *)
Lemma cleaner_rejects t :
  empty t = false → TIMESTAMP ∉ columns t → get_cleaned_dataset t = DataFrame_new.
Proof.
  intros He Hts. unfold get_cleaned_dataset. rewrite He.
  unfold required_columns. cbn [forallb]. by rewrite has_column_false.
Qed.

(** The output of a completed cleaning has no [timestamp] column. *)
Lemma cleaner_output_columns df :
  empty df = false → has_required df → cleaning_completes df = true →
  columns (get_cleaned_dataset df) = cleaned_columns_of (columns df).
Proof. intros. by rewrite cleaner_completed. Qed.

Lemma empty_false_rows df : empty df = false → rows df ≠ [].
Proof. unfold empty. by destruct (rows df). Qed.

Lemma not_empty df : rows df ≠ [] → columns df ≠ [] → empty df = false.
Proof. unfold empty. by destruct (rows df), (columns df). Qed.

Lemma integer_row_fixed r : integer_row r → coerce_row r.2 = r.2.
Proof.
  intros (p & f & d & Hp & Hf & Hd). unfold coerce_row.
  rewrite (cell_Some _ _ _ Hp), (cell_Some _ _ _ Hf), (cell_Some _ _ _ Hd).
  rewrite !coerced_CInt. by rewrite (insert_id _ _ _ Hp),
    (insert_id _ _ _ Hf), (insert_id _ _ _ Hd).
Qed.

Lemma cleaned_cells_finite t : cleaned_cells t → finite_numbers t.
Proof.
  intros H. eapply Forall_impl; [exact H|].
  intros r [_ (p & f & d & Hp & Hf & Hd)] _. unfold numeric_columns.
  rewrite !Forall_cons.
  rewrite (cell_Some _ _ _ Hp), (cell_Some _ _ _ Hf), (cell_Some _ _ _ Hd).
  done.
Qed.

(** C2, as the code has it: cleaning a table that is already cleaned keeps
    every row, in order, with its values, but the result is another table,
    keyed by the timestamp and without a [timestamp] column; cleaning that
    result gives the empty table. *)
Theorem cleaning_twice t :
  empty t = false → already_cleaned t → cleaned_cells t →
  rows (get_cleaned_dataset t)
  = (λ r, (cell TIMESTAMP r.2, set_flag (delete TIMESTAMP (delete DATE r.2))))
    <$> rows t
  ∧ columns (get_cleaned_dataset t) = cleaned_columns_of (columns t)
  ∧ get_cleaned_dataset (get_cleaned_dataset t) = DataFrame_new.
Proof.
  intros He (Hreq & Hnd & Hdup) Hcells.
  pose proof (cleaned_cells_finite t Hcells) as Hfin.
  assert (Hc : cleaning_completes t = true) by (by apply completes_iff).
  assert (Hrows : rows (get_cleaned_dataset t)
    = (λ r, (cell TIMESTAMP r.2, set_flag (delete TIMESTAMP (delete DATE r.2))))
      <$> rows t).
  { rewrite cleaner_completed by done. unfold cleaned_table. cbn [rows].
    rewrite filter_all.
    - assert (Hext : (λ r, (row_label r.2, clean_row r.2)) <$> rows t
        = (λ r, (cell TIMESTAMP r.2,
                 set_flag (delete TIMESTAMP (delete DATE r.2)))) <$> rows t).
      { apply Forall_fmap_ext_1. eapply Forall_impl; [exact Hcells|].
        intros r [[ns Hns] Hint]. cbn beta. unfold row_label, clean_row,
          set_flag.
        rewrite (integer_row_fixed r Hint), (cell_Some _ _ _ Hns).
        by rewrite !cell_delete_ne. }
      rewrite Hext. apply first_occurrences_NoDup.
      + by rewrite <- list_fmap_compose.
      + intros k _. apply not_elem_of_nil.
    - eapply Forall_impl; [exact Hcells|].
      intros r [[ns Hns] (p & f & d & Hp & Hf & Hd)].
      unfold survives, not_dev_test, row_label.
      by rewrite (cell_Some _ _ _ Hd), (cell_Some _ _ _ Hns). }
  split; [done|]. split; [by apply cleaner_output_columns|].
  apply cleaner_rejects.
  - apply not_empty.
    + rewrite Hrows. apply empty_false_rows in He.
      by destruct (rows t).
    + rewrite cleaner_output_columns by done.
      unfold has_required, required_columns in Hreq.
      rewrite !Forall_cons in Hreq. destruct Hreq as (_ & Hgp & _).
      assert (GRID_PURCHASE ∈ cleaned_columns_of (columns t)) as Hin.
      { unfold cleaned_columns_of. cbn. case_bool_decide;
          rewrite ?elem_of_app, !list_elem_of_filter; [done|by left]. }
      intros Heq. rewrite Heq in Hin. by apply elem_of_nil in Hin.
  - rewrite cleaner_output_columns by done. apply timestamp_not_cleaned.
Qed.

(** When a statement of the cleaner raises, the
    table returned is the working table of that moment, without the test
    fixtures and with the numeric columns coerced so far. *)
Lemma cleaner_raised df :
  empty df = false → has_required df → cleaning_completes df = false →
  ∃ done col rest,
    numeric_columns = done ++ col :: rest
    ∧ infinite_in col df
    ∧ get_cleaned_dataset df = partial_table done df.
Proof.
  intros He Hreq Hc. rewrite cleaner_body by done.
  assert (Hnf : ¬ finite_numbers df).
  { intros Hfin. apply completes_iff in Hfin; [|done].
    congruence. }
  destruct (cleaning_raises df Hreq Hnf)
    as (dn & col & rest & Hsplit & Hinf & Hrun).
  exists dn, col, rest. by rewrite Hrun.
Qed.

End Idempotence.

(** ** Hourly metrics *)

Lemma zip_with_fmap_both {A B C D : Type} (g : B → C → D) (f1 : A → B)
    (f2 : A → C) (l : list A) :
  zip_with g (f1 <$> l) (f2 <$> l) = (λ x, g (f1 x) (f2 x)) <$> l.
Proof. rewrite zip_with_fmap_l, zip_with_fmap_r. apply zip_with_diag. Qed.

Lemma group_fmap {A B : Type} (f : A → Cell) (g : A → B) (l : list A) k :
  group (f <$> l) (g <$> l) k = g <$> filter (λ x, f x = k) l.
Proof.
  unfold group. induction l as [|x l IH]; [done|].
  rewrite !fmap_cons. cbn [boolean_mask]. rewrite IH.
  case_bool_decide.
  - by rewrite filter_cons_True.
  - by rewrite filter_cons_False.
Qed.

Lemma maximum_cons x l :
  maximum (x :: l) = Some (from_option (Z.max x) x (maximum l)).
Proof. done. Qed.

(** [maximum] gives the greatest element. *)
Lemma maximum_Some l v :
  maximum l = Some v ↔ v ∈ l ∧ Forall (λ x, x ≤ v) l.
Proof.
  revert v. induction l as [|x l IH]; intros v.
  - cbn. split; [done|]. by intros [?%elem_of_nil _].
  - rewrite maximum_cons, elem_of_cons, Forall_cons.
    destruct (maximum l) as [m|] eqn:Hm; cbn.
    + destruct (IH m) as [[Hin Hle] _]; [done|].
      split.
      * intros [= <-]. split_and!; [|lia|].
        -- destruct (Z.max_spec x m) as [[_ ->]|[_ ->]]; auto.
        -- eapply Forall_impl; [exact Hle|]. cbn. lia.
      * intros [[->|Hv] [Hx Hall]].
        -- f_equal. rewrite Forall_forall in Hall. specialize (Hall m Hin). lia.
        -- f_equal. rewrite Forall_forall in Hle. specialize (Hle v Hv).
           rewrite Forall_forall in Hall. specialize (Hall m Hin). lia.
    + destruct l as [|y l]; [|done]. split.
      * intros [= <-]. split_and!; [by left|lia|done].
      * intros [[->|?%elem_of_nil] _]; done.
Qed.

Lemma datetime_index_Some (f : Z → Cell) df :
  timestamp_indexed df →
  datetime_index f df = Some ((λ r, f (timestamp_of r.1)) <$> rows df).
Proof.
  unfold datetime_index, index, timestamp_indexed. intros H.
  apply mapM_Some. apply Forall2_fmap_l, Forall2_fmap_r, Forall_Forall2_diag.
  eapply Forall_impl; [exact H|]. intros [l m] Hl. cbn in *.
  by destruct l; try by destruct Hl.
Qed.

Lemma datetime_index_None (f : Z → Cell) df :
  ¬ timestamp_indexed df → datetime_index f df = None.
Proof.
  unfold datetime_index, index, timestamp_indexed. intros H.
  apply not_Forall_Exists in H; [|apply _].
  apply mapM_None, Exists_fmap. eapply Exists_impl; [exact H|].
  intros [l m] Hl. cbn in *. destruct l; try done.
  exfalso. apply Hl. by eexists.
Qed.

Lemma int_series_Some col df :
  integer_column col df →
  int_series col df = Some ((λ r, int_of (cell col r.2)) <$> rows df).
Proof.
  intros [Hcol Hint]. unfold int_series. rewrite getitem_Some by done. cbn.
  apply mapM_Some, Forall2_fmap_l, Forall2_fmap_r, Forall_Forall2_diag.
  eapply Forall_impl; [exact Hint|]. intros r [z Hz]. cbn.
  unfold int_of. by rewrite Hz.
Qed.

Lemma int_series_None col df :
  ¬ integer_column col df → int_series col df = None.
Proof.
  intros H. unfold int_series.
  destruct (decide (col ∈ columns df)) as [Hcol|Hcol].
  - rewrite getitem_Some by done. cbn. apply mapM_None, Exists_fmap.
    assert (Hn : ¬ Forall (λ r, is_Some (as_int (cell col r.2))) (rows df)).
    { intros HF. apply H. by split. }
    apply not_Forall_Exists in Hn; [|apply _].
    eapply Exists_impl; [exact Hn|]. intros r Hr. cbn in *.
    destruct (as_int (cell col r.2)); [|done]. exfalso. apply Hr. by eexists.
  - by rewrite getitem_None.
Qed.

Section Mapped.

(** Tables whose rows are computed from the rows [rs] of another one. *)
Context (rs : list (Cell * gmap string Cell)) (cols : list string).
Context (F : Cell * gmap string Cell → Cell * gmap string Cell).

Lemma getitem_mapped col :
  col ∈ cols →
  getitem col {| columns := cols; rows := F <$> rs |}
  = Some ((λ r, cell col (F r).2) <$> rs).
Proof.
  intros H. rewrite getitem_Some by done. cbn. by rewrite <- list_fmap_compose.
Qed.

Lemma setitem_mapped col (v : Cell * gmap string Cell → Cell) :
  setitem col (v <$> rs) {| columns := cols; rows := F <$> rs |}
  = {| columns := append_new col cols;
       rows := (λ r, ((F r).1, <[col := v r]> (F r).2)) <$> rs |}.
Proof.
  unfold setitem, append_new, has_column. cbn. f_equal.
  exact (zip_with_fmap_both (λ r x, (r.1, <[col := x]> r.2)) F v rs).
Qed.

Lemma int_series_mapped col :
  col ∈ cols → Forall (λ r, is_Some (as_int (cell col (F r).2))) rs →
  int_series col {| columns := cols; rows := F <$> rs |}
  = Some ((λ r, int_of (cell col (F r).2)) <$> rs).
Proof.
  intros Hcol Hint. rewrite int_series_Some.
  - cbn. by rewrite <- list_fmap_compose.
  - split; [done|]. cbn. by apply Forall_fmap.
Qed.

Lemma datetime_index_mapped (f : Z → Cell) :
  Forall (λ r, is_Some (match r.1 with CTime ns => Some ns | _ => None end)) rs →
  (∀ r, (F r).1 = r.1) →
  datetime_index f {| columns := cols; rows := F <$> rs |}
  = Some ((λ r, f (timestamp_of r.1)) <$> rs).
Proof.
  intros Hti HF. rewrite datetime_index_Some.
  - cbn. rewrite <- list_fmap_compose. f_equal. apply list_fmap_ext.
    intros i r _. cbn. by rewrite HF.
  - unfold timestamp_indexed. cbn. apply Forall_fmap.
    eapply Forall_impl; [exact Hti|]. intros r Hr. cbn. by rewrite HF.
Qed.

End Mapped.

Lemma with_hour_mapped df :
  with_hour df
  = {| columns := append_new HOUR (columns df);
       rows := (λ r, (r.1, <[HOUR := CInt (row_hour r)]> r.2)) <$> rows df |}.
Proof.
  unfold with_hour.
  pose proof (setitem_mapped (rows df) (columns df) id HOUR
                (λ r, CInt (row_hour r))) as H.
  rewrite list_fmap_id in H. by destruct df.
Qed.

Lemma add_hour_spec df :
  timestamp_indexed df → add_hour df = Some (with_hour df).
Proof.
  intros H. unfold add_hour, index_hour. by rewrite datetime_index_Some.
Qed.

Lemma add_hour_raises df : ¬ timestamp_indexed df → add_hour df = None.
Proof.
  intros H. unfold add_hour, index_hour. by rewrite datetime_index_None.
Qed.

Lemma elem_of_append_new c col cols :
  c ∈ append_new col cols ↔ c = col ∨ c ∈ cols.
Proof.
  unfold append_new. case_bool_decide.
  - naive_solver.
  - rewrite elem_of_app, list_elem_of_singleton. naive_solver.
Qed.

Lemma loc_fmap (H : Cell → Cell * gmap string Cell) ks k cols :
  (∀ x, (H x).1 = x) → k ∈ ks →
  loc k {| columns := cols; rows := H <$> ks |} = Some (H k).2.
Proof.
  intros HH Hk. unfold loc. cbn.
  induction ks as [|x ks IH]; [by apply elem_of_nil in Hk|].
  rewrite fmap_cons. cbn [list_find]. rewrite HH.
  destruct (decide (x = k)) as [->|Hne]; [done|].
  apply elem_of_cons in Hk as [->|Hk]; [done|].
  specialize (IH Hk). destruct (list_find _ _) as [[i y]|]; [|done].
  done.
Qed.

Lemma hour_group col df h :
  sum_Z (group ((λ r, CInt (row_hour r)) <$> rows df)
           ((λ r, int_of (cell col r.2)) <$> rows df) (CInt h))
  = hour_total col df h.
Proof.
  rewrite group_fmap. unfold hour_total. do 2 f_equal.
  apply list_filter_iff. intros r. split; [by intros [= ->]|by intros ->].
Qed.

Lemma day_group col df d :
  group ((λ r, CTime (row_day r)) <$> rows df)
    ((λ r, int_of (cell col r.2)) <$> rows df) (CTime d)
  = day_values col df d.
Proof.
  rewrite group_fmap. unfold day_values. f_equal.
  apply list_filter_iff. intros r. split; [by intros [= ->]|by intros ->].
Qed.

Lemma integer_column_with_hour col df :
  col ≠ HOUR → integer_column col (with_hour df) ↔ integer_column col df.
Proof.
  intros Hne. rewrite with_hour_mapped. unfold integer_column. cbn.
  rewrite elem_of_append_new, Forall_fmap.
  assert (Hcell : ∀ r : Cell * gmap string Cell,
            cell col (<[HOUR := CInt (row_hour r)]> r.2) = cell col r.2).
  { intros r. by rewrite cell_insert_ne. }
  split; intros [Hc Hf]; (split; [naive_solver|]);
    (eapply Forall_impl; [exact Hf|]); intros r; cbn; by rewrite Hcell.
Qed.

Lemma hourly_totals_spec df :
  integer_column GRID_PURCHASE df → integer_column GRID_FEEDIN df →
  hourly_totals (with_hour df) = Some (totals_table df).
Proof.
  intros Hp Hf. unfold hourly_totals, groupby_sum.
  assert (Hk : getitem HOUR (with_hour df) = Some ((λ r, CInt (row_hour r)) <$> rows df)).
  { rewrite with_hour_mapped, getitem_mapped by (apply elem_of_append_new; by left).
    f_equal. apply list_fmap_ext. intros i r _. cbn. by rewrite cell_insert_eq. }
  rewrite Hk. cbn [mbind option_bind mapM].
  assert (Hs : ∀ col, col ≠ HOUR → integer_column col df →
     int_series col (with_hour df) = Some ((λ r, int_of (cell col r.2)) <$> rows df)).
  { intros col Hne [Hc Hi]. rewrite with_hour_mapped, int_series_mapped.
    - f_equal. apply list_fmap_ext. intros i r _. cbn. by rewrite cell_insert_ne.
    - apply elem_of_append_new. by right.
    - eapply Forall_impl; [exact Hi|]. intros r. cbn. by rewrite cell_insert_ne. }
  rewrite !Hs by done. cbn. f_equal. unfold add_suffix, totals_table. cbn.
  f_equal. rewrite <- list_fmap_compose. apply list_fmap_ext. intros i k Hk'.
  apply list_elem_of_lookup_2, elem_of_remove_dups, list_elem_of_fmap in Hk'
    as (r & -> & _).
  cbn. change (GRID_PURCHASE +:+ TOTAL_SUFFIX) with GRID_PURCHASE_TOTAL.
  change (GRID_FEEDIN +:+ TOTAL_SUFFIX) with GRID_FEEDIN_TOTAL.
  rewrite cell_insert_eq, cell_insert_ne, cell_insert_eq by done.
  by rewrite !hour_group.
Qed.

Lemma join_totals_spec df :
  aggregable df → join_totals (with_hour df) = Some (with_totals df).
Proof.
  intros (Hp & Hf & Hpt & Hft). unfold join_totals.
  rewrite hourly_totals_spec by done. cbn [mbind option_bind].
  unfold join_on.
  rewrite with_hour_mapped, getitem_mapped by (apply elem_of_append_new; by left).
  cbn [mbind option_bind]. rewrite bool_decide_eq_false_2.
  2:{ cbn. rewrite !Exists_cons, Exists_nil, !elem_of_append_new. naive_solver. }
  f_equal. unfold with_totals. cbn [columns rows totals_table]. f_equal.
  rewrite <- list_fmap_compose. apply list_fmap_ext. intros i r Hr.
  cbn [compose fst snd foldr]. f_equal. rewrite cell_insert_eq.
  assert (Hloc : loc (CInt (row_hour r)) (totals_table df)
                 = Some (totals_row df (CInt (row_hour r))).2).
  { apply (loc_fmap (totals_row df)); [done|].
    apply elem_of_remove_dups, list_elem_of_fmap. exists r. split; [done|].
    by eapply list_elem_of_lookup_2. }
  rewrite Hloc. cbn. by rewrite cell_insert_eq, cell_insert_ne, cell_insert_eq.
Qed.

Lemma join_totals_raises df :
  ¬ aggregable df → join_totals (with_hour df) = None.
Proof.
  intros Hn. unfold join_totals.
  destruct (decide (integer_column GRID_PURCHASE df)) as [Hp|Hp].
  2:{ unfold hourly_totals, groupby_sum.
      destruct (getitem HOUR (with_hour df)); [|done].
      cbn [mbind option_bind mapM].
      rewrite (int_series_None GRID_PURCHASE); [done|].
      by rewrite integer_column_with_hour. }
  destruct (decide (integer_column GRID_FEEDIN df)) as [Hf|Hf].
  2:{ unfold hourly_totals, groupby_sum.
      destruct (getitem HOUR (with_hour df)); [|done].
      cbn [mbind option_bind mapM].
      destruct (int_series GRID_PURCHASE (with_hour df)); [|done].
      cbn [mbind option_bind].
      rewrite (int_series_None GRID_FEEDIN); [done|].
      by rewrite integer_column_with_hour. }
  rewrite hourly_totals_spec by done. cbn [mbind option_bind]. unfold join_on.
  destruct (getitem HOUR (with_hour df)); [|done]. cbn [mbind option_bind].
  rewrite bool_decide_eq_true_2; [done|].
  rewrite with_hour_mapped. cbn.
  rewrite !Exists_cons, !elem_of_append_new.
  destruct (decide (GRID_PURCHASE_TOTAL ∈ columns df)) as [e|e]; [left; right; exact e|].
  destruct (decide (GRID_FEEDIN_TOTAL ∈ columns df)) as [e'|e']; [right; left; right; exact e'|].
  exfalso. apply Hn. by split_and!.
Qed.

Lemma flag_daily_max_mapped flag col df cols
    (F : Cell * gmap string Cell → Cell * gmap string Cell) :
  timestamp_indexed df → (∀ r, (F r).1 = r.1) → col ∈ cols →
  (∀ r, cell col (F r).2 = cell col r.2) →
  Forall (λ r, is_Some (as_int (cell col r.2))) (rows df) →
  flag_daily_max flag col {| columns := cols; rows := F <$> rows df |}
  = Some {| columns := append_new flag cols;
            rows := (λ r, ((F r).1, <[flag := CBool (is_day_max col df r)]> (F r).2))
                    <$> rows df |}.
Proof.
  intros Hti HF Hcol Hcell Hint. unfold flag_daily_max, index_floor_day.
  rewrite datetime_index_mapped by done. cbn [mbind option_bind].
  rewrite int_series_mapped; [|done|].
  2:{ eapply Forall_impl; [exact Hint|]. intros r Hr. cbn. by rewrite Hcell. }
  cbn [mbind option_bind]. f_equal.
  assert (Hv : (λ r, int_of (cell col (F r).2)) <$> rows df
               = (λ r, int_of (cell col r.2)) <$> rows df).
  { apply list_fmap_ext. intros i r _. cbn. by rewrite Hcell. }
  rewrite Hv. unfold transform_is_max.
  rewrite zip_with_fmap_both, <- list_fmap_compose.
  rewrite setitem_mapped. f_equal. apply list_fmap_ext. intros i r _.
  cbn [compose]. do 2 f_equal. unfold is_day_max.
  change (floor_day (timestamp_of r.1)) with (row_day r).
  by rewrite <- day_group.
Qed.

(** The aggregation on a table that it can work on: it runs to the end, and
    the result is [enriched_table]. *)
Lemma metrics_run df :
  timestamp_indexed df → aggregable df →
  try_block metric_steps df = (true, enriched_table df).
Proof.
  intros Hti Hagg. pose proof Hagg as ([Hpc Hpi] & [Hfc Hfi] & Hpt & Hft).
  unfold metric_steps.
  erewrite try_block_cons_Some; [|by apply add_hour_spec].
  erewrite try_block_cons_Some; [|by apply join_totals_spec].
  erewrite try_block_cons_Some.
  2:{ unfold drop_hour, drop_existing. rewrite has_column_true; [done|].
      cbn. rewrite elem_of_app, elem_of_append_new. by (left; left). }
  unfold drop_column, with_totals. cbn [columns rows].
  rewrite <- list_fmap_compose. unfold compose. cbn [fst snd].
  erewrite try_block_cons_Some.
  2:{ apply flag_daily_max_mapped; [done|done| | |done].
      - rewrite list_elem_of_filter, elem_of_app, elem_of_append_new.
        split; [done|]. by (left; right).
      - intros r. cbn. by rewrite cell_delete_ne, !cell_insert_ne. }
  cbn [fst snd].
  erewrite try_block_cons_Some.
  2:{ apply flag_daily_max_mapped; [done|done| | |done].
      - rewrite elem_of_append_new, list_elem_of_filter, elem_of_app,
          elem_of_append_new. right. split; [done|]. by (left; right).
      - intros r. cbn. by rewrite cell_insert_ne, cell_delete_ne, !cell_insert_ne. }
  done.
Qed.

Lemma metrics_body df :
  empty df = false → add_hour_metrics df = (try_block metric_steps df).2.
Proof. intros He. unfold add_hour_metrics. by rewrite He. Qed.

Lemma metrics_completed df :
  empty df = false → timestamp_indexed df → aggregable df →
  add_hour_metrics df = enriched_table df.
Proof. intros He Hti Hagg. by rewrite metrics_body, metrics_run. Qed.







Lemma append_new_fresh col cols : col ∉ cols → append_new col cols = cols ++ [col].
Proof. intros H. unfold append_new. by rewrite bool_decide_eq_false_2. Qed.

(** C9, as the code has it: on a table that it can aggregate and that has
    no column named [hour] nor named as a metric, the aggregation appends
    the four metric columns and changes nothing else. *)
Theorem metrics_frame df :
  empty df = false → timestamp_indexed df → aggregable df →
  HOUR ∉ columns df →
  MAX_GRID_PURCHASE_HOUR ∉ columns df → MAX_GRID_FEEDIN_HOUR ∉ columns df →
  columns (add_hour_metrics df) = columns df ++ metric_columns
  ∧ Forall2 (λ r r', r'.1 = r.1
                     ∧ ∀ c, c ∈ columns df → r'.2 !! c = r.2 !! c)
      (rows df) (rows (add_hour_metrics df)).
Proof.
  intros He Hti Hagg Hh Hmp Hmf. pose proof Hagg as (_ & _ & Hpt & Hft).
  rewrite metrics_completed by done. split.
  - cbn. unfold enriched_columns. rewrite (append_new_fresh HOUR) by done.
    rewrite !filter_app, filter_all.
    2:{ apply Forall_forall. by intros c Hc ->. }
    cbn. rewrite <- app_assoc.
    rewrite decide_False by (by intros ?). rewrite !decide_True by done.
    cbn [app].
    rewrite (append_new_fresh MAX_GRID_PURCHASE_HOUR).
    2:{ rewrite elem_of_app, !elem_of_cons, elem_of_nil. naive_solver. }
    rewrite (append_new_fresh MAX_GRID_FEEDIN_HOUR).
    2:{ rewrite !elem_of_app, !elem_of_cons, elem_of_nil. naive_solver. }
    by rewrite <- !app_assoc.
  - cbn. apply Forall2_fmap_r, Forall_Forall2_diag, Forall_forall.
    intros r Hr. cbn. split; [done|]. intros c Hc. unfold enrich.
    assert (c ≠ HOUR ∧ c ≠ GRID_PURCHASE_TOTAL ∧ c ≠ GRID_FEEDIN_TOTAL
            ∧ c ≠ MAX_GRID_PURCHASE_HOUR ∧ c ≠ MAX_GRID_FEEDIN_HOUR)
      as (? & ? & ? & ? & ?) by (split_and!; by intros ->).
    by rewrite !lookup_insert_ne, lookup_delete_ne, !lookup_insert_ne.
Qed.

(** ** From the cleaner to the aggregator *)

Section Pipeline.

Context {parsers : Parsers}.

Lemma to_datetime_cases c :
  to_datetime c = CNull ∨ ∃ ns, to_datetime c = CTime ns.
Proof.
  destruct c; cbn; eauto. destruct (parse_datetime s); cbn; eauto.
Qed.




End Pipeline.

(** ** Loading *)

(** C5, as the code has it: whatever [read_csv] does, [load_dataset]
    returns a table. A missing file gives the empty table and one record
    at the error level, without traceback; any other exception gives the
    empty table and one record at the error level with the traceback. *)
Theorem load_dataset_returns read_csv filename delimiter :
  ∃ df record,
    load_dataset read_csv filename delimiter = (Returns df, [record])
    ∧ match read_csv filename delimiter with
      | Parsed parsed => df = parsed ∧ levelname record = INFO
      | RaiseFileNotFoundError =>
          df = DataFrame_new ∧ levelname record = ERROR
          ∧ exc_info record = false
      | RaiseException =>
          df = DataFrame_new ∧ levelname record = ERROR
          ∧ exc_info record = true
      end.
Proof.
  unfold load_dataset. destruct (read_csv filename delimiter);
    do 2 eexists; (split; [reflexivity|]); by cbn.
Qed.

(** C5 as stated does not hold: a missing file is reported at the error
    level, not as a warning. *)
Lemma missing_file_is_an_error :
  ∃ record,
    load_dataset no_such_file "measurements_coding_challenge.csv" ";"
    = (Returns DataFrame_new, [record])
    ∧ levelname record = ERROR ∧ levelname record ≠ WARNING.
Proof. eexists. by split_and!. Qed.

(** ** The properties on the examples *)

(** What the cleaner makes of the end-to-end example. *)
Lemma clean_example_raw : clean example_raw = example_cleaned.
Proof. vm_compute. reflexivity. Qed.

(** C1, as the code has it: the end-to-end example leaves one row, at
    01:00:00, with [grid_purchase] 0: the row with the unparseable purchase
    comes first, and its zeroed value is kept. *)
Theorem example_end_to_end :
  ∃ m, rows (clean example_raw) = [(CTime (timestamp 2024 1 1 1 0 0), m)]
       ∧ m !! GRID_PURCHASE = Some (CInt 0)
       ∧ m !! GRID_FEEDIN = Some (CInt 30)
       ∧ m !! DIRECT_CONSUMPTION = Some (CInt 10)
       ∧ m !! DIRECT_CONSUMPTION_FLAG = Some (CBool true).
Proof.
  rewrite clean_example_raw. eexists. split; [reflexivity|].
  by split_and!; vm_compute.
Qed.

(** C1 as stated, with [grid_purchase] 50, does not hold. *)
Lemma example_purchase_is_not_50 :
  ¬ ∃ m, rows (clean example_raw) = [(CTime (timestamp 2024 1 1 1 0 0), m)]
         ∧ m !! GRID_PURCHASE = Some (CInt 50)
         ∧ m !! GRID_FEEDIN = Some (CInt 30)
         ∧ m !! DIRECT_CONSUMPTION = Some (CInt 10)
         ∧ m !! DIRECT_CONSUMPTION_FLAG = Some (CBool true).
Proof.
  rewrite clean_example_raw. intros (m & Hrows & Hp & _).
  injection Hrows as <-. vm_compute in Hp. discriminate.
Qed.

(** C2 as stated does not hold: cleaning an already cleaned table gives
    another table, and cleaning the cleaner's own output gives the empty
    table. *)
Lemma cleaning_is_not_idempotent :
  already_cleaned cleaned_once
  ∧ clean cleaned_once ≠ cleaned_once
  ∧ clean (clean cleaned_once) = DataFrame_new
  ∧ clean (clean cleaned_once) ≠ clean cleaned_once.
Proof.
  split_and!.
  - by_computation.
  - intros H. apply (f_equal columns) in H. vm_compute in H. discriminate.
  - vm_compute. reflexivity.
  - intros H. apply (f_equal columns) in H. vm_compute in H. discriminate.
Qed.

Lemma cleaned_once_cells : cleaned_cells cleaned_once.
Proof.
  apply Forall_cons. split; [|apply Forall_nil_2]. split.
  - eexists. vm_compute. reflexivity.
  - do 3 eexists. split_and!; vm_compute; reflexivity.
Qed.

Lemma cleaning_twice_witness :
  rows (clean cleaned_once)
  = (λ r, (cell TIMESTAMP r.2,
           set_flag (parsers := literal_parsers)
             (delete TIMESTAMP (delete DATE r.2))))
    <$> rows cleaned_once
  ∧ columns (clean cleaned_once) = cleaned_columns_of (columns cleaned_once)
  ∧ clean (clean cleaned_once) = DataFrame_new.
Proof.
  apply (cleaning_twice (parsers := literal_parsers) cleaned_once).
  - reflexivity.
  - by_computation.
  - apply cleaned_once_cells.
Defined.






(** The two records at one o'clock, a day apart, share their totals. *)
Lemma totals_span_the_days :
  (λ r, (cell GRID_PURCHASE_TOTAL r.2, cell GRID_FEEDIN_TOTAL r.2))
  <$> rows (add_hour_metrics two_days)
  = [(CInt 12, CInt 34); (CInt 5, CInt 3); (CInt 12, CInt 34)].
Proof. vm_compute. reflexivity. Qed.


(** The two records tied at the maximum purchase of the first day are both
    flagged. *)
Lemma tied_records_are_both_flagged :
  (λ r, cell MAX_GRID_PURCHASE_HOUR r.2) <$> rows (add_hour_metrics two_days)
  = [CBool true; CBool true; CBool true].
Proof. vm_compute. reflexivity. Qed.



(** C9 as stated does not hold: a column named [hour] is overwritten and
    dropped. *)
Lemma hour_column_is_dropped :
  empty hour_column_table = false ∧ timestamp_indexed hour_column_table
  ∧ HOUR ∈ columns hour_column_table
  ∧ (HOUR ∉ columns (add_hour_metrics hour_column_table))
  ∧ columns (add_hour_metrics hour_column_table)
    ≠ columns hour_column_table ++ metric_columns.
Proof.
  split_and!; [reflexivity|by_computation..|].
  intros H. vm_compute in H. discriminate.
Qed.

Lemma metrics_frame_witness :
  columns (add_hour_metrics two_days) = columns two_days ++ metric_columns
  ∧ Forall2 (λ r r', r'.1 = r.1
                     ∧ ∀ c, c ∈ columns two_days → r'.2 !! c = r.2 !! c)
      (rows two_days) (rows (add_hour_metrics two_days)).
Proof.
  apply (metrics_frame two_days).
  - reflexivity.
  - by_computation.
  - by_computation.
  - by_computation.
  - by_computation.
  - by_computation.
Defined.



(** * Further properties of the stages *)

(** ** The cleaner *)

(** The labels kept by [duplicated(keep='first')] are pairwise distinct, and
    none of them was met before. *)
Lemma first_occurrences_distinct {A : Type} seen (rs : list (Cell * A)) :
  NoDup (fst <$> first_occurrences_from seen rs)
  ∧ Forall (λ k, k ∉ seen) (fst <$> first_occurrences_from seen rs).
Proof.
  revert seen. induction rs as [|r rs IH]; intros seen.
  - split; [apply NoDup_nil_2|apply Forall_nil_2].
  - rewrite first_occurrences_cons.
    destruct (IH (r.1 :: seen)) as [Hnd Hall].
    assert (Hseen : Forall (λ k, k ∉ seen)
                      (fst <$> first_occurrences_from (r.1 :: seen) rs)).
    { eapply Forall_impl; [exact Hall|]. intros k Hk Hin. apply Hk. by right. }
    destruct (decide (r.1 ∈ seen)) as [Hin|Hin]; [done|].
    rewrite fmap_cons. split.
    + apply NoDup_cons. split; [|done]. intros Hr.
      rewrite Forall_forall in Hall. apply (Hall _ Hr). by left.
    + by apply Forall_cons.
Qed.

Section CleanerMore.

Context {parsers : Parsers}.

Lemma accepted_body df :
  accepted df → get_cleaned_dataset df = (try_block cleaning_steps df).2.
Proof. intros [He Hreq]. by apply cleaner_body. Qed.


Lemma rejected_table_shape df :
  ¬ accepted df →
  get_cleaned_dataset df = df ∨ get_cleaned_dataset df = DataFrame_new.
Proof.
  intros Hna. unfold get_cleaned_dataset.
  destruct (empty df) eqn:He; [by left|].
  destruct (forallb _ _) eqn:Hf; [|by right].
  exfalso. apply Hna. split; [done|]. by apply has_required_forallb.
Qed.

Lemma partial_table_rows dn df :
  rows (partial_table dn df)
  = (λ r, (r.1, foldl (λ m col, <[col := CInt (coerced (cell col m))]> m) r.2 dn))
    <$> filter not_dev_test (rows df).
Proof.
  unfold partial_table.
  induction dn as [|col dn IH] using rev_ind.
  - cbn. rewrite <- (list_fmap_id (filter _ _)) at 1.
    apply list_fmap_ext. by intros i [l m] _.
  - rewrite foldl_app. cbn [foldl].
    change (rows (map_rows ?f ?t)) with ((λ r, (r.1, f r.2)) <$> rows t).
    rewrite IH, <- list_fmap_compose. apply list_fmap_ext. intros i r _.
    cbn. by rewrite foldl_app.
Qed.

Lemma partial_table_columns dn df : columns (partial_table dn df) = columns df.
Proof.
  unfold partial_table. induction dn as [|col dn IH] using rev_ind; [done|].
  rewrite foldl_app. cbn. exact IH.
Qed.

(** The columns coerced before a raise do not include
    [direct_consumption], the last of the loop. *)
Lemma coerced_before_raise dn col rest :
  numeric_columns = dn ++ col :: rest → DIRECT_CONSUMPTION ∉ dn.
Proof.
  unfold numeric_columns. intros H.
  destruct dn as [|c1 [|c2 [|c3 dn]]]; cbn in H.
  - apply not_elem_of_nil.
  - injection H as <- _. by intros [?|?%elem_of_nil]%elem_of_cons.
  - injection H as <- <- _.
    by intros [?|[?|?%elem_of_nil]%elem_of_cons]%elem_of_cons.
  - injection H as _ _ _ H. by destruct dn.
Qed.

Lemma cell_coerced_others c dn m :
  c ∉ dn →
  cell c (foldl (λ m col, <[col := CInt (coerced (cell col m))]> m) m dn)
  = cell c m.
Proof.
  intros Hc. induction dn as [|col dn IH] using rev_ind; [done|].
  rewrite foldl_app. cbn. rewrite not_elem_of_app, list_elem_of_singleton in Hc.
  destruct Hc as [Hdn Hne]. rewrite cell_insert_ne by done. by apply IH.
Qed.

(** X2: whatever happens in the body, also when a statement raises, the
    table returned for an accepted table holds no row whose
    [direct_consumption] is "Dev test". *)
Theorem no_dev_test_row_is_returned df :
  accepted df → Forall not_dev_test (rows (get_cleaned_dataset df)).
Proof.
  intros [He Hreq]. destruct (cleaning_completes df) eqn:Hc.
  - rewrite cleaner_completed by done. apply Forall_forall.
    intros [l m] (r & _ & _ & _ & ->)%cleaned_row_origin.
    unfold not_dev_test. cbn [snd].
    destruct (clean_row_lookup r.2) as (_ & _ & Hd & _).
    by rewrite (cell_Some _ _ _ Hd).
  - destruct (cleaner_raised df He Hreq Hc) as (dn & col & rest & Hsplit & _ & ->).
    rewrite partial_table_rows. apply Forall_fmap, Forall_forall.
    intros r [Hnd _]%list_elem_of_filter. unfold not_dev_test in *. cbn.
    rewrite cell_coerced_others; [done|]. by eapply coerced_before_raise.
Qed.

Lemma label_is_timestamp c :
  to_datetime c ≠ CNull →
  is_Some (match to_datetime c with CTime ns => Some ns | _ => None end).
Proof.
  intros H. destruct (to_datetime_cases c) as [?|[ns Hns]]; [done|].
  rewrite Hns. by eexists.
Qed.

(** X3: the index of a completed cleaning holds timestamps only: no row is
    left with a timestamp that did not parse. *)
Theorem cleaned_index_has_no_missing_timestamp df :
  accepted df → cleaning_completes df = true →
  timestamp_indexed (get_cleaned_dataset df).
Proof.
  intros [He Hreq] Hc. rewrite cleaner_completed by done.
  apply Forall_forall. intros [l m] (r & _ & [_ Hl] & -> & _)%cleaned_row_origin.
  cbn. by apply label_is_timestamp.
Qed.

(** X4: the index of a completed cleaning holds no timestamp twice. *)
Theorem cleaned_index_is_unique df :
  accepted df → cleaning_completes df = true →
  NoDup (index (get_cleaned_dataset df)).
Proof.
  intros [He Hreq] Hc. rewrite cleaner_completed by done.
  unfold index, cleaned_table. cbn [rows]. apply first_occurrences_distinct.
Qed.

(** X5: in every row of a completed cleaning the flag tells whether the
    direct consumption of that row is positive. *)
Theorem flag_is_positive_consumption df l m :
  accepted df → cleaning_completes df = true →
  (l, m) ∈ rows (get_cleaned_dataset df) →
  ∃ d, m !! DIRECT_CONSUMPTION = Some (CInt d)
       ∧ m !! DIRECT_CONSUMPTION_FLAG = Some (CBool (bool_decide (0 < d))).
Proof.
  intros [He Hreq] Hc. rewrite cleaner_completed by done.
  intros (r & _ & _ & _ & ->)%cleaned_row_origin.
  destruct (clean_row_lookup r.2) as (_ & _ & Hd & Hf). eauto.
Qed.

End CleanerMore.

Section CleanerShape.

Context {parsers : Parsers}.



(** X7: the cleaner never returns more rows than it is given, whatever the
    table and whatever happens in the body. *)
Theorem cleaner_adds_no_row df :
  (length (rows (get_cleaned_dataset df)) ≤ length (rows df))%nat.
Proof.
  destruct (decide (accepted df)) as [[He Hreq]|Hna].
  - destruct (cleaner_passes_through df Hreq) as [_ Hsub].
    apply sublist_length in Hsub. by rewrite !length_fmap in Hsub.
  - destruct (rejected_table_shape df Hna) as [-> | ->]; [done|]. cbn. lia.
Qed.

(** X8: a completed cleaning keeps the order of the input: its index is
    the parsed timestamps of the raw rows, with some of them left out. *)
Theorem cleaned_index_keeps_order df :
  accepted df → cleaning_completes df = true →
  index (get_cleaned_dataset df)
  `sublist_of` (λ r, row_label r.2) <$> rows df.
Proof.
  intros [He Hreq] Hc. rewrite cleaner_completed by done.
  unfold index, cleaned_table. cbn [rows].
  etrans; [apply fmap_sublist, first_occurrences_sublist|].
  rewrite <- list_fmap_compose.
  change (fst ∘ (λ r : Cell * gmap string Cell, (row_label r.2, clean_row r.2)))
    with (λ r : Cell * gmap string Cell, row_label r.2).
  apply fmap_sublist, sublist_filter.
Qed.


End CleanerShape.

(** ** Task #6 *)

Section TaskSix.

Context {parsers : Parsers}.

(** With an infinity in a numeric column, the statements up to the
    indexing do not run to the end. *)
Lemma indexing_raises df :
  has_required df → ¬ finite_numbers df →
  (try_block indexing_steps df).1 = false.
Proof.
  intros Hreq Hnf. rewrite finite_numbers_iff in Hnf.
  unfold has_required, required_columns in Hreq.
  rewrite !Forall_cons in Hreq. destruct Hreq as (Hts & Hgp & Hgf & Hdc & _).
  unfold indexing_steps, numeric_columns in *. cbn [fmap list_fmap app].
  erewrite try_block_cons_Some; [|by apply remove_dev_test_spec].
  destruct (decide (infinite_in GRID_PURCHASE df)) as [H1|H1].
  { by rewrite try_block_cons_None by (by apply coerce_numeric_raises). }
  pose proof (not_infinite_in _ _ H1) as F1.
  erewrite try_block_cons_Some; [|by apply coerce_numeric_spec].
  destruct (decide (infinite_in GRID_FEEDIN df)) as [H2|H2].
  { rewrite try_block_cons_None; [done|].
    apply coerce_numeric_raises; [done|]. cbn. apply Exists_fmap.
    eapply Exists_impl; [exact H2|]. intros r Hr. cbn.
    by rewrite cell_insert_ne. }
  pose proof (not_infinite_in _ _ H2) as F2.
  erewrite try_block_cons_Some; [|apply coerce_numeric_spec; [done|] ].
  2:{ cbn. apply Forall_fmap. eapply Forall_impl; [exact F2|].
      intros r Hr. cbn. by rewrite cell_insert_ne. }
  destruct (decide (infinite_in DIRECT_CONSUMPTION df)) as [H3|H3].
  { rewrite try_block_cons_None; [done|].
    apply coerce_numeric_raises; [done|]. cbn. apply Exists_fmap, Exists_fmap.
    eapply Exists_impl; [exact H3|]. intros r Hr. cbn.
    by rewrite !cell_insert_ne. }
  exfalso. apply Hnf. by repeat constructor.
Qed.

(** X10: Task #6 never changes a value.  Whenever the eight statements
    before it have run on a table with the required columns, the two grid
    columns hold integers, which Task #2 has put there, and the statement
    leaves the table as it finds it. *)
Theorem task_six_changes_nothing df t :
  has_required df →
  try_block (take 8 cleaning_steps) df = (true, t) →
  cleaning_steps !! 8%nat = Some (fill_missing [GRID_PURCHASE; GRID_FEEDIN])
  ∧ fill_missing [GRID_PURCHASE; GRID_FEEDIN] t = Some t.
Proof.
  intros Hreq Hrun. split; [done|].
  change (take 8 cleaning_steps) with (indexing_steps ++ [drop_duplicates])
    in Hrun.
  rewrite try_block_app in Hrun.
  destruct (decide (finite_numbers df)) as [Hfin|Hnf].
  2:{ pose proof (indexing_raises df Hreq Hnf) as Hr. rewrite Hr in Hrun.
      by rewrite Hrun in Hr. }
  rewrite indexing_runs in Hrun by done. cbn [fst snd] in Hrun.
  erewrite try_block_cons_Some in Hrun; [|apply drop_duplicates_spec].
  cbn [try_block] in Hrun. injection Hrun as <-.
  pose proof Hreq as Hreq'. unfold has_required, required_columns in Hreq'.
  rewrite !Forall_cons in Hreq'. destruct Hreq' as (Hts & Hgp & Hgf & Hdc & _).
  apply fill_missing_id.
  - cbn. rewrite !list_elem_of_filter. done.
  - cbn. rewrite !list_elem_of_filter. done.
  - cbn [rows with_rows]. eapply Forall_sublist_of;
      [apply first_occurrences_sublist|].
    cbn. apply Forall_fmap, Forall_forall. intros r _. unfold integer_row. cbn.
    destruct (coerce_row_lookup r.2) as (Hp & Hf & Hd).
    rewrite !lookup_delete_ne by done.
    do 3 eexists. split_and!; [apply Hp|apply Hf|apply Hd].
Qed.

End TaskSix.

(** ** The aggregator *)

(** The three ways the aggregation can go on a table that is not empty. *)
Lemma metrics_outcome df :
  empty df = false →
  (¬ timestamp_indexed df ∧ metrics_complete df = false
   ∧ add_hour_metrics df = df)
  ∨ (timestamp_indexed df ∧ ¬ aggregable df ∧ metrics_complete df = false
     ∧ add_hour_metrics df = with_hour df)
  ∨ (timestamp_indexed df ∧ aggregable df ∧ metrics_complete df = true
     ∧ add_hour_metrics df = enriched_table df).
Proof.
  intros He. rewrite metrics_body by done. unfold metrics_complete.
  destruct (decide (timestamp_indexed df)) as [Hti|Hti].
  - right. destruct (decide (aggregable df)) as [Hagg|Hagg].
    + right. by rewrite metrics_run.
    + left. unfold metric_steps.
      erewrite try_block_cons_Some; [|by apply add_hour_spec].
      by rewrite try_block_cons_None by (by apply join_totals_raises).
  - left. unfold metric_steps.
    by rewrite try_block_cons_None by (by apply add_hour_raises).
Qed.

Lemma with_hour_index df : index (with_hour df) = index df.
Proof.
  rewrite with_hour_mapped. unfold index. cbn.
  rewrite <- list_fmap_compose. by apply list_fmap_ext.
Qed.

(** X11: the aggregator returns the records it is given, under the same
    index and in the same order, whatever the table and also when a
    statement raises. *)
Theorem aggregator_keeps_the_index df :
  index (add_hour_metrics df) = index df.
Proof.
  destruct (empty df) eqn:He.
  - unfold add_hour_metrics. by rewrite He.
  - destruct (metrics_outcome df He)
      as [(_ & _ & ->)|[(_ & _ & _ & ->)|(_ & _ & _ & ->)]].
    + done.
    + apply with_hour_index.
    + unfold index. cbn. rewrite <- list_fmap_compose. by apply list_fmap_ext.
Qed.


Lemma maximum_is_Some x l : is_Some (maximum (x :: l)).
Proof. rewrite maximum_cons. by eexists. Qed.

(** X13: on a table that it can aggregate, every calendar day has a record
    flagged as the maximum of [grid_purchase], and one flagged as the
    maximum of [grid_feedin]. *)
Theorem every_day_has_a_maximum df r :
  empty df = false → timestamp_indexed df → aggregable df →
  r ∈ rows df →
  (∃ r' m', r' ∈ rows df ∧ row_day r' = row_day r
            ∧ (r'.1, m') ∈ rows (add_hour_metrics df)
            ∧ m' !! MAX_GRID_PURCHASE_HOUR = Some (CBool true))
  ∧ (∃ r' m', r' ∈ rows df ∧ row_day r' = row_day r
              ∧ (r'.1, m') ∈ rows (add_hour_metrics df)
              ∧ m' !! MAX_GRID_FEEDIN_HOUR = Some (CBool true)).
Proof.
  intros He Hti Hagg Hr. rewrite metrics_completed by done.
  assert (Hmax : ∀ col, ∃ r', r' ∈ rows df ∧ row_day r' = row_day r
                              ∧ is_day_max col df r' = true).
  { intros col.
    assert (Hin : int_of (cell col r.2) ∈ day_values col df (row_day r)).
    { apply list_elem_of_fmap. exists r. split; [done|].
      by apply list_elem_of_filter. }
    destruct (day_values col df (row_day r)) as [|x l] eqn:Hd;
      [by apply elem_of_nil in Hin|].
    destruct (maximum_is_Some x l) as [v Hv].
    pose proof Hv as Hv'. rewrite <- Hd in Hv'.
    apply maximum_Some in Hv as [Hvin _]. rewrite <- Hd in Hvin.
    apply list_elem_of_fmap in Hvin as (r' & -> & [Hday Hr']%list_elem_of_filter).
    exists r'. split_and!; [done..|]. unfold is_day_max.
    apply bool_decide_eq_true_2. by rewrite Hday. }
  assert (Hrow : ∀ r', r' ∈ rows df →
            (r'.1, enrich df r') ∈ rows (enriched_table df)).
  { intros r' Hr'. cbn. apply list_elem_of_fmap. by exists r'. }
  split.
  - destruct (Hmax GRID_PURCHASE) as (r' & Hr' & Hday & Hflag).
    exists r', (enrich df r'). split_and!; [done|done|by apply Hrow|].
    unfold enrich. by rewrite lookup_insert_ne, lookup_insert_eq, Hflag.
  - destruct (Hmax GRID_FEEDIN) as (r' & Hr' & Hday & Hflag).
    exists r', (enrich df r'). split_and!; [done|done|by apply Hrow|].
    unfold enrich. by rewrite lookup_insert_eq, Hflag.
Qed.

Lemma enriched_columns_elem c cols :
  c ∈ enriched_columns cols
  ↔ c = MAX_GRID_FEEDIN_HOUR ∨ c = MAX_GRID_PURCHASE_HOUR
    ∨ (c ≠ HOUR ∧ (c ∈ cols ∨ c = GRID_PURCHASE_TOTAL ∨ c = GRID_FEEDIN_TOTAL)).
Proof.
  unfold enriched_columns.
  rewrite !elem_of_append_new, list_elem_of_filter, elem_of_app,
    elem_of_append_new, !elem_of_cons, elem_of_nil.
  split; [|intros [?|[?|[? [?|[?|?]]]]]; tauto].
  intros [?|[?|[? [[?|?]|[?|[?|?]]]]]]; tauto.
Qed.

(** X14: the aggregator is not idempotent. On its own output, when that is
    the result of a completed aggregation, the join with the totals raises,
    and what is returned is that output with one more column, [hour]. *)
Theorem aggregating_twice df :
  empty df = false → timestamp_indexed df → aggregable df →
  metrics_complete (add_hour_metrics df) = false
  ∧ add_hour_metrics (add_hour_metrics df) = with_hour (add_hour_metrics df)
  ∧ columns (add_hour_metrics (add_hour_metrics df))
    = columns (add_hour_metrics df) ++ [HOUR].
Proof.
  intros He Hti Hagg. rewrite (metrics_completed df) by done.
  assert (He' : empty (enriched_table df) = false).
  { apply not_empty.
    - cbn. apply empty_false_rows in He. by destruct (rows df).
    - intros Hnil.
      assert (Hin : MAX_GRID_FEEDIN_HOUR ∈ columns (enriched_table df))
        by (apply enriched_columns_elem; by left).
      rewrite Hnil in Hin. by apply elem_of_nil in Hin. }
  assert (Hna : ¬ aggregable (enriched_table df)).
  { intros (_ & _ & Hpt & _). apply Hpt. cbn. apply enriched_columns_elem.
    right; right. split; [done|]. right. by left. }
  destruct (metrics_outcome _ He')
    as [(Hnti & _)|[(_ & _ & Hmc & Hout)|(_ & ? & _)]]; [|clear Hna|done].
  - exfalso. apply Hnti. unfold timestamp_indexed. cbn. by apply Forall_fmap.
  - split_and!; [done..|]. rewrite Hout, with_hour_mapped. cbn [columns].
    apply append_new_fresh. intros Hin.
    apply (enriched_columns_elem HOUR (columns df)) in Hin.
    by destruct Hin as [?|[?|[? _]]].
Qed.

(** ** From one stage to the next *)

Section Stages.

Context {parsers : Parsers}.

Lemma first_occurrences_head {A : Type} (r : Cell * A) rs :
  first_occurrences_from [] (r :: rs) ≠ [].
Proof.
  rewrite first_occurrences_cons. by rewrite decide_False by apply not_elem_of_nil.
Qed.

(** A completed cleaning is not empty when a raw row survives. *)
Lemma cleaned_not_empty df :
  accepted df → cleaning_completes df = true → Exists survives (rows df) →
  empty (get_cleaned_dataset df) = false.
Proof.
  intros [He Hreq] Hc Hex. rewrite cleaner_completed by done. apply not_empty.
  - cbn. apply Exists_exists in Hex as (r & Hr & Hs).
    assert (Hin : r ∈ filter survives (rows df)) by (by apply list_elem_of_filter).
    destruct (filter survives (rows df)) as [|r0 rs];
      [by apply elem_of_nil in Hin|].
    rewrite fmap_cons. apply first_occurrences_head.
  - cbn. unfold cleaned_columns_of. cbn. case_bool_decide as Hf.
    + intros Hnil. rewrite Hnil in Hf. by apply elem_of_nil in Hf.
    + intros Hnil. by apply app_eq_nil in Hnil as [_ ?].
Qed.



End Stages.

(** ** Exporting *)


(** ** The jobs *)

Section JobsTheory.

Context {parsers : Parsers}.
Variable read_csv : string → string → ReadCsv.
Variable to_csv : DataFrame → string → string → ToCsv.

Lemma load_dataset_job_data p :
  measurements_data (load_dataset_job read_csv p)
  = loaded (read_csv INPUT_FILE ";")
  ∧ written (load_dataset_job read_csv p) = written p
  ∧ scheduler_instance (load_dataset_job read_csv p) = scheduler_instance p
  ∧ ∃ r, log (load_dataset_job read_csv p) = log p ++ [r]
         ∧ (levelname r = INFO ↔ ∃ df, read_csv INPUT_FILE ";" = Parsed df)
         ∧ levelname r ≠ WARNING.
Proof.
  unfold load_dataset_job, load_dataset.
  destruct (read_csv INPUT_FILE ";") as [df| |]; cbn;
    (split_and!; [done..|]); eexists; (split; [done|]); cbn;
    split; try done; split; try done; try (intros [? ?]; done); eauto.
Qed.

(** A downstream job on an empty snapshot only logs a warning. *)
Lemma downstream_job_skips f p :
  downstream f → empty (measurements_data p) = true →
  ∃ r, run_job read_csv to_csv f p = logging [r] p ∧ is_warning r.
Proof.
  intros Hf He. destruct f; [done|..]; cbn;
    unfold get_cleaned_dataset_job, add_hour_metrics_job, export_dataset_job;
    rewrite He; by eexists.
Qed.

Lemma downstream_jobs_skip fs p :
  Forall downstream fs → empty (measurements_data p) = true →
  ∃ records, run_jobs read_csv to_csv fs p = logging records p
    ∧ length records = length fs ∧ Forall is_warning records.
Proof.
  intros Hfs. revert p. induction Hfs as [|f fs Hf _ IH]; intros p He.
  - exists []. split; [|done]. unfold logging. cbn. rewrite app_nil_r.
    by destruct p.
  - destruct (downstream_job_skips f p Hf He) as (r & Hr & Hw).
    cbn. rewrite Hr.
    destruct (IH (logging [r] p)) as (rs & Hrs & Hlen & Hws); [done|].
    exists (r :: rs). split; [|split].
    + unfold run_jobs in Hrs. rewrite Hrs. unfold logging. cbn.
      by rewrite <- app_assoc.
    + cbn. by rewrite Hlen.
    + by constructor.
Qed.

(** X17: while the snapshot is empty, the jobs after the load job do
    nothing but warn: whichever of them fire, in whatever order and however
    often, the snapshot stays as it is, nothing is written, and the log
    gains one warning for each job fired. *)
Theorem downstream_jobs_wait_for_data fs p :
  empty (measurements_data p) = true → Forall downstream fs →
  measurements_data (run_jobs read_csv to_csv fs p) = measurements_data p
  ∧ written (run_jobs read_csv to_csv fs p) = written p
  ∧ ∃ records,
      log (run_jobs read_csv to_csv fs p) = log p ++ records
      ∧ length records = length fs ∧ Forall is_warning records.
Proof.
  intros He Hfs.
  destruct (downstream_jobs_skip fs p Hfs He) as (rs & -> & Hlen & Hws).
  split_and!; [done..|]. by exists rs.
Qed.

Lemma clean_job_data p :
  measurements_data (get_cleaned_dataset_job p)
  = get_cleaned_dataset (measurements_data p)
  ∧ written (get_cleaned_dataset_job p) = written p.
Proof.
  unfold get_cleaned_dataset_job. destruct (empty (measurements_data p)) eqn:He.
  - cbn. split; [|done]. symmetry. unfold get_cleaned_dataset.
    by rewrite He.
  - done.
Qed.

Lemma metrics_job_data p :
  measurements_data (add_hour_metrics_job p)
  = add_hour_metrics (measurements_data p)
  ∧ written (add_hour_metrics_job p) = written p.
Proof.
  unfold add_hour_metrics_job. destruct (empty (measurements_data p)) eqn:He.
  - cbn. split; [|done]. symmetry. unfold add_hour_metrics. by rewrite He.
  - done.
Qed.

Lemma export_job_data p :
  measurements_data (export_dataset_job to_csv p) = measurements_data p
  ∧ written (export_dataset_job to_csv p)
    = written p
      ++ (if empty (measurements_data p) then []
          else match to_csv (measurements_data p) OUTPUT_FILE "," with
               | Written => [mkWrite OUTPUT_FILE "," (measurements_data p)]
               | RaiseOnWrite => []
               end).
Proof.
  unfold export_dataset_job, export_dataset.
  destruct (empty (measurements_data p)) eqn:He.
  - cbn. by rewrite app_nil_r.
  - by destruct (to_csv (measurements_data p) OUTPUT_FILE ",").
Qed.

Lemma cycle_data p :
  let out := add_hour_metrics
               (get_cleaned_dataset (loaded (read_csv INPUT_FILE ";"))) in
  measurements_data (run_jobs read_csv to_csv cycle p) = out
  ∧ written (run_jobs read_csv to_csv cycle p)
    = written p
      ++ (if empty out then []
          else match to_csv out OUTPUT_FILE "," with
               | Written => [mkWrite OUTPUT_FILE "," out]
               | RaiseOnWrite => []
               end).
Proof.
  intros out. unfold cycle, run_jobs. cbn [foldl run_job].
  set (p1 := load_dataset_job read_csv p).
  set (p2 := get_cleaned_dataset_job p1).
  set (p3 := add_hour_metrics_job p2).
  destruct (load_dataset_job_data p) as (H1 & W1 & _).
  destruct (clean_job_data p1) as [H2 W2].
  destruct (metrics_job_data p2) as [H3 W3].
  destruct (export_job_data p3) as [H4 W4].
  fold p1 in H1, W1. fold p2 in H2, W2, H3, W3. fold p3 in H3, W3, H4, W4.
  assert (Hout : measurements_data p3 = out).
  { rewrite H3, H2, H1. done. }
  rewrite H4, W4, Hout, W3, W2, W1. done.
Qed.

(** X18: one cycle of the four jobs leaves in the snapshot the composition
    of the stages on what the file holds, whatever the snapshot was before
    and however the stages end: the emptiness checks of the jobs change
    nothing in the data.  The cycle writes at most one file, and it writes
    exactly when that table is not empty and the write succeeds. *)
Theorem cycle_is_the_composition p :
  let out := add_hour_metrics
               (get_cleaned_dataset (loaded (read_csv INPUT_FILE ";"))) in
  let p' := run_jobs read_csv to_csv cycle p in
  measurements_data p' = out
  ∧ (written p' = written p
     ∨ written p' = written p ++ [mkWrite OUTPUT_FILE "," out])
  ∧ (written p' ≠ written p
     ↔ empty out = false ∧ to_csv out OUTPUT_FILE "," = Written).
Proof.
  intros out p'. destruct (cycle_data p) as [Hd Hw]. fold out p' in Hd, Hw.
  split; [done|]. rewrite Hw.
  assert (Hne : ∀ w : Write, written p ++ [w] ≠ written p).
  { intros w Heq. apply (f_equal length) in Heq.
    rewrite length_app in Heq. cbn in Heq. lia. }
  destruct (empty out).
  - rewrite app_nil_r. split; [by left|]. naive_solver.
  - destruct (to_csv out OUTPUT_FILE ",").
    + split; [by right|]. naive_solver.
    + rewrite app_nil_r. split; [by left|]. naive_solver.
Qed.

Lemma run_jobs_app fs gs p :
  run_jobs read_csv to_csv (fs ++ gs) p
  = run_jobs read_csv to_csv gs (run_jobs read_csv to_csv fs p).
Proof. unfold run_jobs. by rewrite foldl_app. Qed.

Lemma cycles_S n : cycles (S n) = cycle ++ cycles n.
Proof. done. Qed.

Lemma cycles_data n p :
  let out := add_hour_metrics
               (get_cleaned_dataset (loaded (read_csv INPUT_FILE ";"))) in
  measurements_data (run_jobs read_csv to_csv (cycles (S n)) p) = out
  ∧ written (run_jobs read_csv to_csv (cycles (S n)) p)
    = written p
      ++ replicate (S n)
           (mkWrite OUTPUT_FILE "," out)
         ≫= (λ w, if empty out then []
                   else match to_csv out OUTPUT_FILE "," with
                        | Written => [w]
                        | RaiseOnWrite => []
                        end).
Proof.
  intros out. revert p. induction n as [|n IH]; intros p.
  - unfold cycles. cbn [replicate mjoin list_join]. rewrite app_nil_r.
    destruct (cycle_data p) as [Hd Hw]. fold out in Hd, Hw.
    split; [done|]. rewrite Hw. cbn. by rewrite app_nil_r.
  - rewrite cycles_S, run_jobs_app.
    destruct (IH (run_jobs read_csv to_csv cycle p)) as [Hd Hw].
    split; [done|]. rewrite Hw.
    destruct (cycle_data p) as [_ Hw1]. fold out in Hw1. rewrite Hw1.
    by rewrite <- app_assoc.
Qed.

(** X19: every cycle starts afresh from the file.  After any number of
    cycles on the same file the snapshot is the one that a single cycle
    leaves, and when the result is not empty and the destination can be
    written, each cycle has written it once more: the exported file is
    overwritten with the same table, cycle after cycle. *)
Theorem cycles_repeat_the_first n p :
  let out := add_hour_metrics
               (get_cleaned_dataset (loaded (read_csv INPUT_FILE ";"))) in
  empty out = false → to_csv out OUTPUT_FILE "," = Written →
  measurements_data (run_jobs read_csv to_csv (cycles (S n)) p)
  = measurements_data (run_jobs read_csv to_csv cycle p)
  ∧ written (run_jobs read_csv to_csv (cycles (S n)) p)
    = written p ++ replicate (S n) (mkWrite OUTPUT_FILE "," out).
Proof.
  intros out He Hw. destruct (cycles_data n p) as [Hd Hws].
  destruct (cycle_data p) as [Hd1 _]. fold out in Hd, Hws, Hd1.
  rewrite Hd, Hd1. split; [done|]. rewrite Hws, He, Hw. f_equal.
  generalize (S n). intros m. induction m as [|m IH]; [done|].
  cbn [replicate]. rewrite bind_cons, IH. done.
Qed.

(** X20: a cycle on a file that cannot be read discards the snapshot of
    the cycle before: the snapshot is the empty table, nothing is written,
    and the log gains the error of the load job and one warning from each
    of the three other jobs. *)
Theorem unreadable_file_empties_the_snapshot p :
  (∀ df, read_csv INPUT_FILE ";" ≠ Parsed df) →
  let p' := run_jobs read_csv to_csv cycle p in
  measurements_data p' = DataFrame_new ∧ written p' = written p
  ∧ ∃ e w1 w2 w3,
      log p' = log p ++ [e; w1; w2; w3]
      ∧ is_error e ∧ is_warning w1 ∧ is_warning w2 ∧ is_warning w3.
Proof.
  intros Hraise p'. subst p'. unfold cycle.
  change (run_jobs read_csv to_csv (LoadDatasetJob :: ?fs) p)
    with (run_jobs read_csv to_csv fs (load_dataset_job read_csv p)).
  assert (Hload : ∃ e, load_dataset_job read_csv p
                       = set_data DataFrame_new (logging [e] p) ∧ is_error e).
  { unfold load_dataset_job, load_dataset.
    destruct (read_csv INPUT_FILE ";") as [df| |] eqn:Hr;
      [by destruct (Hraise df)|by eexists..]. }
  destruct Hload as (e & -> & He).
  destruct (downstream_jobs_skip
              [GetCleanedDatasetJob; AddHourMetricsJob; ExportDatasetJob]
              (set_data DataFrame_new (logging [e] p)))
    as (rs & -> & Hlen & Hws).
  { by repeat constructor. }
  { done. }
  cbn. split_and!; [done..|].
  destruct rs as [|w1 [|w2 [|w3 [|]]]]; try done.
  exists e, w1, w2, w3. rewrite <- app_assoc.
  apply Forall_cons in Hws as [? Hws]. apply Forall_cons in Hws as [? Hws].
  apply Forall_cons in Hws as [? _]. done.
Qed.


(** X22: the cleaning job is not to fire twice on one snapshot.  When it
    has cleaned a loaded table to the end, with a surviving row, a second
    run before the next load finds no [timestamp] column, logs an error and
    leaves the empty table in the snapshot. *)
Theorem cleaning_job_twice p :
  accepted (measurements_data p) →
  cleaning_completes (measurements_data p) = true →
  Exists survives (rows (measurements_data p)) →
  let p1 := get_cleaned_dataset_job p in
  let p2 := get_cleaned_dataset_job p1 in
  empty (measurements_data p1) = false
  ∧ measurements_data p2 = DataFrame_new
  ∧ ∃ e, log p2 = log p1 ++ [e] ∧ is_error e.
Proof.
  intros Hacc Hc Hex p1 p2.
  pose proof (cleaned_not_empty _ Hacc Hc Hex) as Hne.
  pose proof Hacc as [He Hreq].
  assert (H1 : measurements_data p1 = cleaned_table (measurements_data p)).
  { subst p1. unfold get_cleaned_dataset_job. rewrite He. cbn.
    by apply cleaner_completed. }
  rewrite cleaner_completed in Hne by done.
  assert (Hts : TIMESTAMP ∉ columns (cleaned_table (measurements_data p))).
  { apply timestamp_not_cleaned. }
  assert (Hnr : ¬ has_required (cleaned_table (measurements_data p))).
  { unfold has_required. intros Hall. rewrite Forall_forall in Hall.
    apply Hts, Hall. by left. }
  assert (Hf : forallb (λ col, has_column col
                          (cleaned_table (measurements_data p)))
                 required_columns = false).
  { apply not_true_is_false. intros Hall. by apply Hnr, has_required_forallb. }
  assert (H2 : p2 = set_data DataFrame_new
                      (logging [mkLogRecord ERROR
                                  "Missing required columns in dataset." false]
                         p1)).
  { subst p2. unfold get_cleaned_dataset_job. rewrite H1, Hne.
    rewrite cleaner_rejects by done.
    unfold get_cleaned_dataset_log. by rewrite Hne, Hf. }
  split; [by rewrite H1|]. rewrite H2. split; [done|]. by eexists.
Qed.

End JobsTheory.

(** ** The scheduler *)

(** X23: the first call of [schedule_pipeline] sets the scheduler up and
    starts it, with the four jobs in the order load, clean, aggregate,
    export, each every five minutes.  When the clock does not go backwards
    between its four readings, the first runs are in that order too: the
    cleaning at least ten seconds after the load, and each later job at
    least five seconds after the one before it. *)
Theorem pipeline_is_scheduled_in_order c p :
  scheduler_instance p = None → steady c →
  ∃ s j1 j2 j3 j4,
    scheduler_instance (schedule_pipeline c p) = Some s
    ∧ set_up s ∧ jobs s = [j1; j2; j3; j4]
    ∧ next_run_time j1 + timedelta_seconds 10 ≤ next_run_time j2
    ∧ next_run_time j2 + timedelta_seconds 5 ≤ next_run_time j3
    ∧ next_run_time j3 + timedelta_seconds 5 ≤ next_run_time j4.
Proof.
  intros Hs (H12 & H23 & H34). unfold schedule_pipeline. rewrite Hs.
  do 5 eexists. cbn -[timedelta_seconds timedelta_minutes].
  split; [reflexivity|]. split; [|split; [reflexivity|]].
  - split_and!; [done..|]. by repeat constructor.
  - cbn -[timedelta_seconds]. unfold timedelta_seconds. lia.
Qed.

Lemma schedule_pipeline_again c s p :
  scheduler_instance p = Some s →
  ∃ r, schedule_pipeline c p = logging [r] p ∧ is_warning r.
Proof. intros Hs. unfold schedule_pipeline. rewrite Hs. by eexists. Qed.

Lemma main_loop_again cs s p :
  scheduler_instance p = Some s →
  ∃ records, main_loop cs p = logging records p
    ∧ length records = length cs ∧ Forall is_warning records.
Proof.
  revert p. induction cs as [|c cs IH]; intros p Hs.
  - exists []. split; [|done]. unfold logging. cbn. rewrite app_nil_r.
    by destruct p.
  - destruct (schedule_pipeline_again c s p Hs) as (r & Hr & Hw).
    cbn. rewrite Hr.
    destruct (IH (logging [r] p)) as (rs & Hrs & Hlen & Hws); [done|].
    exists (r :: rs). split; [|split].
    + unfold main_loop in Hrs. rewrite Hrs. unfold logging. cbn.
      by rewrite <- app_assoc.
    + cbn. by rewrite Hlen.
    + by constructor.
Qed.

(** X24: the main loop schedules the pipeline once.  However many turns it
    takes, the scheduler is the one that the first call set up, with its
    four jobs; one exit handler is registered; every later turn adds a
    warning to the log and nothing else. *)
Theorem main_loop_schedules_once c cs p :
  scheduler_instance p = None →
  let first := schedule_pipeline c p in
  let p' := main_loop (c :: cs) p in
  scheduler_instance p' = scheduler_instance first
  ∧ exit_handlers p' = exit_handlers p ++ [ShutdownSchedulerInstance]
  ∧ measurements_data p' = measurements_data p
  ∧ written p' = written p
  ∧ ∃ records,
      log p' = log first ++ records
      ∧ length records = length cs ∧ Forall is_warning records.
Proof.
  intros Hs first p'. subst p'. cbn [main_loop foldl]. fold first.
  fold (main_loop cs first).
  assert (Hf : ∃ s, scheduler_instance first = Some s).
  { subst first. unfold schedule_pipeline. rewrite Hs. by eexists. }
  destruct Hf as [s Hf].
  destruct (main_loop_again cs s first Hf) as (rs & -> & Hlen & Hws).
  cbn [scheduler_instance exit_handlers measurements_data written log logging].
  assert (Hfirst : exit_handlers first
                   = exit_handlers p ++ [ShutdownSchedulerInstance]
                   ∧ measurements_data first = measurements_data p
                   ∧ written first = written p).
  { subst first. unfold schedule_pipeline. by rewrite Hs. }
  destruct Hfirst as (-> & -> & ->). split_and!; [done..|]. by exists rs.
Qed.

Section EventsTheory.

Context {parsers : Parsers}.
Variable read_csv : string → string → ReadCsv.
Variable to_csv : DataFrame → string → string → ToCsv.







End EventsTheory.

(** ** The theorems on examples *)


Lemma no_dev_test_row_is_returned_witness :
  Forall not_dev_test (rows (clean infinite_raw)).
Proof.
  apply (no_dev_test_row_is_returned (parsers := literal_parsers) infinite_raw).
  by_computation.
Defined.

Lemma cleaned_index_has_no_missing_timestamp_witness :
  timestamp_indexed (clean example_raw).
Proof.
  apply (cleaned_index_has_no_missing_timestamp (parsers := literal_parsers)
           example_raw).
  - by_computation.
  - vm_compute. reflexivity.
Defined.

Lemma cleaned_index_is_unique_witness : NoDup (index (clean example_raw)).
Proof.
  apply (cleaned_index_is_unique (parsers := literal_parsers) example_raw).
  - by_computation.
  - vm_compute. reflexivity.
Defined.

Lemma flag_is_positive_consumption_witness :
  ∃ d, record cleaned_columns [CInt 0; CInt 30; CInt 10; CBool true]
         !! DIRECT_CONSUMPTION = Some (CInt d)
       ∧ record cleaned_columns [CInt 0; CInt 30; CInt 10; CBool true]
           !! DIRECT_CONSUMPTION_FLAG = Some (CBool (bool_decide (0 < d))).
Proof.
  apply (flag_is_positive_consumption (parsers := literal_parsers)
           example_raw (CTime (timestamp 2024 1 1 1 0 0))).
  - by_computation.
  - vm_compute. reflexivity.
  - by_computation.
Defined.


Lemma cleaned_index_keeps_order_witness :
  index (clean example_raw)
  `sublist_of` (λ r, row_label (parsers := literal_parsers) r.2)
               <$> rows example_raw.
Proof.
  apply (cleaned_index_keeps_order (parsers := literal_parsers) example_raw).
  - by_computation.
  - vm_compute. reflexivity.
Defined.


Lemma every_day_has_a_maximum_witness :
  (∃ r' m', r' ∈ rows two_days
            ∧ row_day r'
              = row_day (CTime (timestamp 2024 1 1 1 0 0), first_record)
            ∧ (r'.1, m') ∈ rows (add_hour_metrics two_days)
            ∧ m' !! MAX_GRID_PURCHASE_HOUR = Some (CBool true))
  ∧ (∃ r' m', r' ∈ rows two_days
              ∧ row_day r'
                = row_day (CTime (timestamp 2024 1 1 1 0 0), first_record)
              ∧ (r'.1, m') ∈ rows (add_hour_metrics two_days)
              ∧ m' !! MAX_GRID_FEEDIN_HOUR = Some (CBool true)).
Proof.
  apply (every_day_has_a_maximum two_days
           (CTime (timestamp 2024 1 1 1 0 0), first_record)).
  - reflexivity.
  - by_computation.
  - by_computation.
  - by_computation.
Defined.

Lemma aggregating_twice_witness :
  metrics_complete (add_hour_metrics two_days) = false
  ∧ add_hour_metrics (add_hour_metrics two_days)
    = with_hour (add_hour_metrics two_days)
  ∧ columns (add_hour_metrics (add_hour_metrics two_days))
    = columns (add_hour_metrics two_days) ++ [HOUR].
Proof.
  apply (aggregating_twice two_days).
  - reflexivity.
  - by_computation.
  - by_computation.
Defined.



Lemma downstream_jobs_wait_for_data_witness :
  measurements_data
    (run_jobs (parsers := literal_parsers) example_source writable
       [ExportDatasetJob; GetCleanedDatasetJob; AddHourMetricsJob] Process_new)
  = measurements_data Process_new
  ∧ written
      (run_jobs (parsers := literal_parsers) example_source writable
         [ExportDatasetJob; GetCleanedDatasetJob; AddHourMetricsJob] Process_new)
    = written Process_new
  ∧ ∃ records,
      log (run_jobs (parsers := literal_parsers) example_source writable
             [ExportDatasetJob; GetCleanedDatasetJob; AddHourMetricsJob]
             Process_new)
      = log Process_new ++ records
      ∧ length records
        = length [ExportDatasetJob; GetCleanedDatasetJob; AddHourMetricsJob]
      ∧ Forall is_warning records.
Proof.
  apply (downstream_jobs_wait_for_data (parsers := literal_parsers)
           example_source writable
           [ExportDatasetJob; GetCleanedDatasetJob; AddHourMetricsJob]
           Process_new).
  - reflexivity.
  - repeat constructor; discriminate.
Defined.

Lemma cycles_repeat_the_first_witness :
  measurements_data
    (run_jobs (parsers := literal_parsers) example_source writable (cycles 3)
       Process_new)
  = measurements_data
      (run_jobs (parsers := literal_parsers) example_source writable cycle
         Process_new)
  ∧ written
      (run_jobs (parsers := literal_parsers) example_source writable (cycles 3)
         Process_new)
    = written Process_new
      ++ replicate 3
           (mkWrite OUTPUT_FILE ","
              (add_hour_metrics
                 (clean (loaded (example_source INPUT_FILE ";"))))).
Proof.
  apply (cycles_repeat_the_first (parsers := literal_parsers)
           example_source writable 2 Process_new).
  - vm_compute. reflexivity.
  - reflexivity.
Defined.

Lemma unreadable_file_empties_the_snapshot_witness :
  measurements_data
    (run_jobs (parsers := literal_parsers) no_such_file writable cycle
       (set_data example_cleaned Process_new))
  = DataFrame_new
  ∧ written
      (run_jobs (parsers := literal_parsers) no_such_file writable cycle
         (set_data example_cleaned Process_new))
    = written (set_data example_cleaned Process_new)
  ∧ ∃ e w1 w2 w3,
      log (run_jobs (parsers := literal_parsers) no_such_file writable cycle
             (set_data example_cleaned Process_new))
      = log (set_data example_cleaned Process_new) ++ [e; w1; w2; w3]
      ∧ is_error e ∧ is_warning w1 ∧ is_warning w2 ∧ is_warning w3.
Proof.
  apply (unreadable_file_empties_the_snapshot (parsers := literal_parsers)
           no_such_file writable (set_data example_cleaned Process_new)).
  intros df. discriminate.
Defined.


Lemma cleaning_job_twice_witness :
  empty (measurements_data
           (get_cleaned_dataset_job (parsers := literal_parsers)
              (set_data example_raw Process_new))) = false
  ∧ measurements_data
      (get_cleaned_dataset_job (parsers := literal_parsers)
         (get_cleaned_dataset_job (parsers := literal_parsers)
            (set_data example_raw Process_new)))
    = DataFrame_new
  ∧ ∃ e,
      log (get_cleaned_dataset_job (parsers := literal_parsers)
             (get_cleaned_dataset_job (parsers := literal_parsers)
                (set_data example_raw Process_new)))
      = log (get_cleaned_dataset_job (parsers := literal_parsers)
               (set_data example_raw Process_new)) ++ [e]
      ∧ is_error e.
Proof.
  apply (cleaning_job_twice (parsers := literal_parsers)
           (set_data example_raw Process_new)).
  - by_computation.
  - vm_compute. reflexivity.
  - by_computation.
Defined.

Lemma pipeline_is_scheduled_in_order_witness :
  ∃ s j1 j2 j3 j4,
    scheduler_instance (schedule_pipeline example_clock Process_new) = Some s
    ∧ set_up s ∧ jobs s = [j1; j2; j3; j4]
    ∧ next_run_time j1 + timedelta_seconds 10 ≤ next_run_time j2
    ∧ next_run_time j2 + timedelta_seconds 5 ≤ next_run_time j3
    ∧ next_run_time j3 + timedelta_seconds 5 ≤ next_run_time j4.
Proof.
  apply (pipeline_is_scheduled_in_order example_clock Process_new).
  - reflexivity.
  - unfold steady. cbn. lia.
Defined.

Lemma main_loop_schedules_once_witness :
  scheduler_instance
    (main_loop [example_clock; example_clock; example_clock] Process_new)
  = scheduler_instance (schedule_pipeline example_clock Process_new)
  ∧ exit_handlers
      (main_loop [example_clock; example_clock; example_clock] Process_new)
    = exit_handlers Process_new ++ [ShutdownSchedulerInstance]
  ∧ measurements_data
      (main_loop [example_clock; example_clock; example_clock] Process_new)
    = measurements_data Process_new
  ∧ written
      (main_loop [example_clock; example_clock; example_clock] Process_new)
    = written Process_new
  ∧ ∃ records,
      log (main_loop [example_clock; example_clock; example_clock] Process_new)
      = log (schedule_pipeline example_clock Process_new) ++ records
      ∧ length records = length [example_clock; example_clock]
      ∧ Forall is_warning records.
Proof.
  apply (main_loop_schedules_once example_clock [example_clock; example_clock]
           Process_new).
  reflexivity.
Defined.


Lemma task_six_changes_nothing_witness :
  cleaning_steps (parsers := literal_parsers) !! 8%nat
  = Some (fill_missing [GRID_PURCHASE; GRID_FEEDIN])
  ∧ fill_missing [GRID_PURCHASE; GRID_FEEDIN]
      (try_block (take 8 (cleaning_steps (parsers := literal_parsers)))
         example_raw).2
    = Some (try_block (take 8 (cleaning_steps (parsers := literal_parsers)))
              example_raw).2.
Proof.
  apply (task_six_changes_nothing (parsers := literal_parsers) example_raw).
  - by_computation.
  - vm_compute. reflexivity.
Defined.

(** A raw table with the documented columns, cleaned and aggregated, has
    the eight columns of the exported file. *)
Lemma dated_raw_is_exported_with_eight_columns :
  columns (add_hour_metrics (clean dated_raw)) = exported_columns.
Proof. vm_compute. reflexivity. Qed.

(** One cycle on the example source writes one file, and three cycles
    write it three times. *)
Lemma example_cycles_write_three_times :
  length (written (run_jobs (parsers := literal_parsers) example_source
                     writable (cycles 3) Process_new)) = 3%nat
  ∧ length (written (run_jobs (parsers := literal_parsers) example_source
                       read_only (cycles 3) Process_new)) = 0%nat.
Proof. split; vm_compute; reflexivity. Qed.
